(** * Mycodo output runtime: [mycodo/outputs/base_output.py]

    A shallow embedding of [AbstractOutput]: the per-output runtime state,
    [output_on_off] (the manipulation request), [check_triggers] (the trigger
    evaluator) and [output_sec_currently_on], followed by the properties of
    the natural-language specification.

    Conventions of the embedding.
    - Instants ([datetime]) and durations (seconds as Python numbers) are
      integers of one fixed resolution; the arithmetic of the source
      ([abs], [+], [-], comparisons, [timedelta], [total_seconds]) is taken
      as exact.  Instants are counted in seconds from 1970-01-01 00:00:00.
      A [datetime] holds the years 1 to 9999 ([in_datetime_range]) and the
      source raises [OverflowError] past them; the embedding computes on,
      so it describes the calls whose instants stay within that range.
    - The driver ([output_switch], [is_on], [is_setup]), the clocks, the
      trigger table and the live duty cycle are not part of this class: each
      call receives their answers in an [Env].
    - Everything a call does to the outside world is appended to a trace of
      [event]s, in program order.
    - An exception leaves the object as it was when raised; the caller keeps
      the object. *)

From Stdlib Require Import ZArith List Ascii String Bool Lia.
Import ListNotations.
Open Scope Z_scope.
Open Scope string_scope.
Open Scope list_scope.

Set Implicit Arguments.

(** ** Python values reaching [state] *)

Inductive PyVal : Type :=
| PStr (s : string)
| PInt (z : Z)
| PBool (b : bool)
| PNone.

Definition Z_of_bool (b : bool) : Z := if b then 1 else 0.

(** Python's [==] on the values above: [True == 1], [False == 0]. *)
Definition py_eq (a b : PyVal) : bool :=
  match a, b with
  | PStr x, PStr y => String.eqb x y
  | PInt x, PInt y => Z.eqb x y
  | PInt x, PBool y => Z.eqb x (Z_of_bool y)
  | PBool x, PInt y => Z.eqb (Z_of_bool x) y
  | PBool x, PBool y => Bool.eqb x y
  | PNone, PNone => true
  | _, _ => false
  end.

(** [v in l] *)
Definition py_in (v : PyVal) (l : list PyVal) : bool := existsb (py_eq v) l.

(** [s in l] for a list of strings *)
Definition str_in (s : string) (l : list string) : bool :=
  existsb (String.eqb s) l.

(** [output_type in ['sec', None]] *)
Definition in_sec_or_None (output_type : option string) : bool :=
  match output_type with
  | None => true
  | Some s => String.eqb s "sec"
  end.

(** [output_type == k] for an optional string and a literal *)
Definition opt_is (output_type : option string) (k : string) : bool :=
  match output_type with
  | None => false
  | Some s => String.eqb s k
  end.

(** ** Data model *)

(** [mycodo.utils.outputs.output_types()] is outside this module; the class
    reads its keys ['on_off'], ['pwm'] and ['volume']. *)
Record OutputTypes : Type := {
  ot_on_off : list string;
  ot_pwm : list string;
  ot_volume : list string
}.

(** [OUTPUT_INFORMATION]: only the key ['output_types'] is read here;
    [None] stands for a dict without that key. *)
Record OutputInformation : Type := {
  oi_output_types : option (list string)
}.

(** [self.output_off_until]: [None] after [__init__], the integer [0] after
    [setup_on_off_output], a [datetime] once a minimum off time was asked. *)
Inductive OffUntil : Type :=
| OffNone
| OffZero
| OffAt (t : Z).

(** Truthiness of [self.output_off_until]. *)
Definition off_until_truthy (o : OffUntil) : bool :=
  match o with
  | OffAt _ => true
  | _ => false
  end.

(** The object: configuration read in [__init__] and the runtime fields. *)
Record Output : Type := {
  unique_id : string;
  output_name : string;
  output_type : string;
  output_force_command : bool;
  output_types : OutputTypes;
  OUTPUT_INFORMATION : option OutputInformation;
  output_on_until : Z;
  output_off_until : OffUntil;
  output_last_duration : Z;
  output_on_duration : bool;
  output_off_triggered : bool;
  output_time_turned_on : option Z
}.

(** The row handed to [AbstractOutput.__init__]. *)
Record OutputRow : Type := {
  row_unique_id : string;
  row_name : string;
  row_output_type : string;
  row_force_command : bool
}.

(** [write_influxdb_value(unique_id, 's', value, measure=..., channel=...,
    timestamp=...)]: what the background thread is started with. *)
Record DurationSample : Type := {
  ds_unique_id : string;
  ds_unit : string;
  ds_value : option Z;
  ds_measure : string;
  ds_channel : Z;
  ds_timestamp : option Z
}.

(** Return messages of [output_on_off], one constructor per format string,
    carrying the format arguments. *)
Inductive Msg : Type :=
| MsgEmpty
| MsgBadState
| MsgNotSetup
| MsgStayOff (id name : string) (off_sec : Z)
| MsgVolume (id name : string) (v : Z)
| MsgDutyCycle (id name : string) (dc : Z)
| MsgAlreadyOnAmount (id name : string) (on remain beenon newon : Z)
| MsgTurnIntoAmount (id name : string) (dur : Z)
| MsgOnFor (id name : string) (dur : Z)
| MsgAlreadyOn (id name : string)
| MsgOnAt (id name : string) (timeon : option Z)
| MsgOffAt (id name : string) (timeoff : Z).

(** The live duty cycle read in [check_triggers]: ['off'] or a number. *)
Inductive Duty : Type :=
| DutyOff
| DutyVal (dc : Z).

Module Trigger.

(** Modelled from the spec: the [Trigger] table of
    [mycodo.databases.models] is not in this module.  A rule has an
    identifier, a name, a trigger class, the output it is bound to, an
    activation flag, a comparison kind and, for duration and duty-cycle
    rules, a threshold. *)
Record t : Type := {
  unique_id : string;
  name : string;
  trigger_type : string;
  unique_id_1 : string;
  is_activated : bool;
  output_state : string;
  output_duration : Z;
  output_duty_cycle : Z
}.

End Trigger.

(** Messages handed to [trigger_all_actions], by format string. *)
Inductive TriggerMsg : Type :=
| TMsgOutput (ts : Z) (cid cname name oid state : string)
| TMsgPwm (ts : Z) (cid cname name oid : string) (actual_dc : Duty)
          (state : string) (duty_cycle : Z).

(** What one call does to its collaborators. *)
Inductive event : Type :=
| EvSwitch (state : string) (otype : option string) (amount : option Z)
| EvWriteInflux (s : DurationSample)
| EvCheckTriggers (amount : Z)
| EvTriggerAllActions (trigger_id : string) (message : TriggerMsg).

(** What the collaborators answer during one call. *)
Record Env : Type := {
  env_now : Z;                 (* datetime.datetime.now() *)
  env_utcnow : Z;              (* datetime.datetime.utcnow() *)
  env_time : Z;                (* time.time() *)
  env_is_on : bool;            (* self.is_on() on entry *)
  env_is_setup : bool;         (* self.is_setup() *)
  env_switch_raises : bool;    (* does output_switch raise when called *)
  env_is_on_after : bool;      (* self.is_on() inside check_triggers *)
  env_triggers : list Trigger.t; (* db_retrieve_table_daemon(Trigger) *)
  env_output_state : option Duty (* self.output_state(); None: the attribute
                                    is not callable *)
}.

(** ** Exceptions, and the monad of a method body *)

Inductive exn : Type :=
| DriverError   (* raised by the driver's output_switch *)
| TypeError.    (* a None used as a container or called *)

Record Run (A : Type) : Type := {
  r_self : Output;
  r_trace : list event;
  r_val : exn + A
}.

Definition M (A : Type) : Type := Output -> Run A.

Definition ret {A} (a : A) : M A :=
  fun self => {| r_self := self; r_trace := []; r_val := inr a |}.

Definition raise {A} (e : exn) : M A :=
  fun self => {| r_self := self; r_trace := []; r_val := inl e |}.

Definition bind {A B} (m : M A) (f : A -> M B) : M B :=
  fun self =>
    match m self with
    | {| r_self := self1; r_trace := tr1; r_val := inl e |} =>
        {| r_self := self1; r_trace := tr1; r_val := inl e |}
    | {| r_self := self1; r_trace := tr1; r_val := inr a |} =>
        match f a self1 with
        | {| r_self := self2; r_trace := tr2; r_val := v |} =>
            {| r_self := self2; r_trace := tr1 ++ tr2; r_val := v |}
        end
    end.

Definition get : M Output :=
  fun self => {| r_self := self; r_trace := []; r_val := inr self |}.

Definition put (s : Output) : M unit :=
  fun _ => {| r_self := s; r_trace := []; r_val := inr tt |}.

Definition emit (ev : event) : M unit :=
  fun self => {| r_self := self; r_trace := [ev]; r_val := inr tt |}.

Declare Scope py_scope.
Delimit Scope py_scope with py.
Notation "x <- m ;; k" := (bind m (fun x => k))
  (at level 61, m at next level, right associativity) : py_scope.
Notation "m ;; k" := (bind m (fun _ => k))
  (at level 61, right associativity) : py_scope.
Open Scope py_scope.

Definition when (b : bool) (m : M unit) : M unit := if b then m else ret tt.

Fixpoint for_each {A} (l : list A) (body : A -> M unit) : M unit :=
  match l with
  | [] => ret tt
  | x :: l' => body x ;; for_each l' body
  end.

(** ** Field assignments *)

Definition set_OUTPUT_INFORMATION (v : option OutputInformation) (s : Output) : Output :=
  {| unique_id := unique_id s; output_name := output_name s;
     output_type := output_type s;
     output_force_command := output_force_command s;
     output_types := output_types s; OUTPUT_INFORMATION := v;
     output_on_until := output_on_until s;
     output_off_until := output_off_until s;
     output_last_duration := output_last_duration s;
     output_on_duration := output_on_duration s;
     output_off_triggered := output_off_triggered s;
     output_time_turned_on := output_time_turned_on s |}.

Definition set_on_until (v : Z) (s : Output) : Output :=
  {| unique_id := unique_id s; output_name := output_name s;
     output_type := output_type s;
     output_force_command := output_force_command s;
     output_types := output_types s;
     OUTPUT_INFORMATION := OUTPUT_INFORMATION s;
     output_on_until := v;
     output_off_until := output_off_until s;
     output_last_duration := output_last_duration s;
     output_on_duration := output_on_duration s;
     output_off_triggered := output_off_triggered s;
     output_time_turned_on := output_time_turned_on s |}.

Definition set_off_until (v : OffUntil) (s : Output) : Output :=
  {| unique_id := unique_id s; output_name := output_name s;
     output_type := output_type s;
     output_force_command := output_force_command s;
     output_types := output_types s;
     OUTPUT_INFORMATION := OUTPUT_INFORMATION s;
     output_on_until := output_on_until s;
     output_off_until := v;
     output_last_duration := output_last_duration s;
     output_on_duration := output_on_duration s;
     output_off_triggered := output_off_triggered s;
     output_time_turned_on := output_time_turned_on s |}.

Definition set_last_duration (v : Z) (s : Output) : Output :=
  {| unique_id := unique_id s; output_name := output_name s;
     output_type := output_type s;
     output_force_command := output_force_command s;
     output_types := output_types s;
     OUTPUT_INFORMATION := OUTPUT_INFORMATION s;
     output_on_until := output_on_until s;
     output_off_until := output_off_until s;
     output_last_duration := v;
     output_on_duration := output_on_duration s;
     output_off_triggered := output_off_triggered s;
     output_time_turned_on := output_time_turned_on s |}.

Definition set_on_duration (v : bool) (s : Output) : Output :=
  {| unique_id := unique_id s; output_name := output_name s;
     output_type := output_type s;
     output_force_command := output_force_command s;
     output_types := output_types s;
     OUTPUT_INFORMATION := OUTPUT_INFORMATION s;
     output_on_until := output_on_until s;
     output_off_until := output_off_until s;
     output_last_duration := output_last_duration s;
     output_on_duration := v;
     output_off_triggered := output_off_triggered s;
     output_time_turned_on := output_time_turned_on s |}.

Definition set_off_triggered (v : bool) (s : Output) : Output :=
  {| unique_id := unique_id s; output_name := output_name s;
     output_type := output_type s;
     output_force_command := output_force_command s;
     output_types := output_types s;
     OUTPUT_INFORMATION := OUTPUT_INFORMATION s;
     output_on_until := output_on_until s;
     output_off_until := output_off_until s;
     output_last_duration := output_last_duration s;
     output_on_duration := output_on_duration s;
     output_off_triggered := v;
     output_time_turned_on := output_time_turned_on s |}.

Definition set_time_turned_on (v : option Z) (s : Output) : Output :=
  {| unique_id := unique_id s; output_name := output_name s;
     output_type := output_type s;
     output_force_command := output_force_command s;
     output_types := output_types s;
     OUTPUT_INFORMATION := OUTPUT_INFORMATION s;
     output_on_until := output_on_until s;
     output_off_until := output_off_until s;
     output_last_duration := output_last_duration s;
     output_on_duration := output_on_duration s;
     output_off_triggered := output_off_triggered s;
     output_time_turned_on := v |}.

(** [self.field = v] inside a method body *)
Definition assign (f : Output -> Output) : M unit :=
  fun self => {| r_self := f self; r_trace := []; r_val := inr tt |}.

(** ** Construction and set-up *)

(** [AbstractOutput.__init__(output)] outside testing mode; [types] is what
    [output_types()] returns and [now] the clock reading. *)
Definition AbstractOutput_init (output : OutputRow) (types : OutputTypes)
    (now : Z) : Output :=
  {| unique_id := row_unique_id output;
     output_name := row_name output;
     output_type := row_output_type output;
     output_force_command := row_force_command output;
     output_types := types;
     OUTPUT_INFORMATION := None;
     output_on_until := now;
     output_off_until := OffNone;
     output_last_duration := 0;
     output_on_duration := false;
     output_off_triggered := false;
     output_time_turned_on := None |}.

Definition setup_on_off_output (output_information : OutputInformation)
    (now : Z) (self : Output) : Output :=
  let self := set_OUTPUT_INFORMATION (Some output_information) self in
  let self := set_time_turned_on None self in
  let self := set_on_duration false self in
  let self := set_last_duration 0 self in
  let self := set_on_until now self in
  let self := set_off_until OffZero self in
  set_off_triggered false self.

(** ** The driver, as seen from this class *)

(** [self.output_switch(state, output_type=..., amount=...)]: the call is
    recorded, then the driver may raise. *)
Definition output_switch (e : Env) (state : string)
    (otype : option string) (amount : option Z) : M unit :=
  emit (EvSwitch state otype amount) ;;
  if env_switch_raises e then raise DriverError else ret tt.

(** [threading.Thread(target=write_influxdb_value, ...).start()] *)
Definition write_db_start (id : string) (value timestamp : option Z)
    : M unit :=
  emit (EvWriteInflux
          {| ds_unique_id := id; ds_unit := "s"; ds_value := value;
             ds_measure := "duration_time"; ds_channel := 0;
             ds_timestamp := timestamp |}).

(** ['output_types' in self.OUTPUT_INFORMATION] *)
Definition has_output_types_key : M bool :=
  self <- get ;;
  match OUTPUT_INFORMATION self with
  | None => raise TypeError
  | Some oi =>
      ret (match oi_output_types oi with Some _ => true | None => false end)
  end.

(** ['on_off' in self.OUTPUT_INFORMATION['output_types']], evaluated only
    after the key was found. *)
Definition on_off_in_information (self : Output) : bool :=
  match OUTPUT_INFORMATION self with
  | Some oi =>
      match oi_output_types oi with
      | Some l => str_in "on_off" l
      | None => false
      end
  | None => false
  end.

(** ** The trigger evaluator *)

(** [s.split('-')[0]] *)
Fixpoint split_dash_first (s : string) : string :=
  match s with
  | EmptyString => EmptyString
  | String c s' =>
      if Ascii.eqb c "-"%char then EmptyString
      else String c (split_dash_first s')
  end.

Definition on_duration_kinds : list string :=
  [ "on_duration_none"; "on_duration_any"; "on_duration_none_any";
    "on_duration_equal"; "on_duration_greater_than";
    "on_duration_equal_greater_than"; "on_duration_less_than";
    "on_duration_equal_less_than" ].

(** The [or_(on_duration_none, ..., on_duration_equal_less_than)] clause. *)
Definition on_duration_clause (amount : Z) (t : Trigger.t) : bool :=
  let kind := Trigger.output_state t in
  let on_duration_none :=
    String.eqb kind "on_duration_none" && (amount =? 0)%Z in
  let on_duration_any :=
    String.eqb kind "on_duration_any" && negb (amount =? 0)%Z in
  let on_duration_none_any := String.eqb kind "on_duration_none_any" in
  let on_duration_equal :=
    String.eqb kind "on_duration_equal"
    && (Trigger.output_duration t =? amount)%Z in
  let on_duration_greater_than :=
    String.eqb kind "on_duration_greater_than"
    && (amount >? Trigger.output_duration t)%Z in
  let on_duration_equal_greater_than :=
    String.eqb kind "on_duration_equal_greater_than"
    && (amount >=? Trigger.output_duration t)%Z in
  let on_duration_less_than :=
    String.eqb kind "on_duration_less_than"
    && (amount <? Trigger.output_duration t)%Z in
  let on_duration_equal_less_than :=
    String.eqb kind "on_duration_equal_less_than"
    && (amount <=? Trigger.output_duration t)%Z in
  on_duration_none || on_duration_any || on_duration_none_any
  || on_duration_equal || on_duration_greater_than
  || on_duration_equal_greater_than || on_duration_less_than
  || on_duration_equal_less_than.

(** The query of the on/off class, filter by filter. *)
Definition select_trigger_output (self : Output) (e : Env) (amount : Z)
    : list Trigger.t :=
  let trigger_output := env_triggers e in
  let trigger_output :=
    filter (fun t => String.eqb (Trigger.trigger_type t) "trigger_output")
           trigger_output in
  let trigger_output :=
    filter (fun t => String.eqb (Trigger.unique_id_1 t) (unique_id self))
           trigger_output in
  let trigger_output :=
    filter (fun t => Bool.eqb (Trigger.is_activated t) true) trigger_output in
  if env_is_on_after e then
    let trigger_output :=
      filter (fun t => str_in (Trigger.output_state t) on_duration_kinds)
             trigger_output in
    filter (on_duration_clause amount) trigger_output
  else
    filter (fun t => String.eqb (Trigger.output_state t) "off") trigger_output.

(** The query of the duty-cycle class. *)
Definition select_trigger_output_pwm (self : Output) (e : Env)
    : list Trigger.t :=
  let trigger_output_pwm := env_triggers e in
  let trigger_output_pwm :=
    filter (fun t => String.eqb (Trigger.trigger_type t) "trigger_output_pwm")
           trigger_output_pwm in
  let trigger_output_pwm :=
    filter (fun t => String.eqb (Trigger.unique_id_1 t) (unique_id self))
           trigger_output_pwm in
  filter (fun t => Bool.eqb (Trigger.is_activated t) true) trigger_output_pwm.

(** [self.output_state()] *)
Definition output_state_call (e : Env) : M Duty :=
  match env_output_state e with
  | None => raise TypeError
  | Some d => ret d
  end.

(** The decision taken for one duty-cycle rule. *)
Definition pwm_trigger_trigger (duty_cycle : Duty) (t : Trigger.t) : bool :=
  let st := Trigger.output_state t in
  let dc := Trigger.output_duty_cycle t in
  match duty_cycle with
  | DutyOff =>
      (String.eqb st "equal" && (dc =? 0)%Z)
      || (String.eqb st "below" && negb (dc =? 0)%Z)
  | DutyVal v =>
      (String.eqb st "above" && (v >? dc)%Z)
      || (String.eqb st "below" && (v <? dc)%Z)
      || (String.eqb st "equal" && (v =? dc)%Z)
  end.

(** The call [self.control.trigger_all_actions(...)] of the first loop. *)
Definition output_action (self : Output) (e : Env) (each_trigger : Trigger.t)
    : event :=
  EvTriggerAllActions (Trigger.unique_id each_trigger)
    (TMsgOutput (env_time e)
       (split_dash_first (Trigger.unique_id each_trigger))
       (Trigger.name each_trigger) (Trigger.name each_trigger)
       (unique_id self) (Trigger.output_state each_trigger)).

(** The body of the second loop. *)
Definition pwm_body (self : Output) (e : Env) (each_trigger : Trigger.t)
    : M unit :=
  duty_cycle <- output_state_call e ;;
  if negb (pwm_trigger_trigger duty_cycle each_trigger) then ret tt
  else
    emit (EvTriggerAllActions (Trigger.unique_id each_trigger)
            (TMsgPwm (env_time e)
               (split_dash_first (Trigger.unique_id each_trigger))
               (Trigger.name each_trigger) (Trigger.name each_trigger)
               (unique_id self) duty_cycle
               (Trigger.output_state each_trigger)
               (Trigger.output_duty_cycle each_trigger))).

Definition check_triggers (e : Env) (amount : Z) : M unit :=
  emit (EvCheckTriggers amount) ;;
  self <- get ;;
  (* Check On/Off Outputs *)
  for_each (select_trigger_output self e amount)
    (fun each_trigger => emit (output_action self e each_trigger)) ;;
  (* Check PWM Outputs *)
  for_each (select_trigger_output_pwm self e) (pwm_body self e).

(** ** [output_on_off] *)

(** How a branch of [output_on_off] ends: with a [return] of its own, or by
    falling out of the [if]/[elif] chain with [msg] set. *)
Inductive flow : Type :=
| Return (code : Z) (msg : Msg)
| Continue (msg : Msg).

(** Lines 212-228: the minimum-off check.  [Some msg] is the refusal. *)
Definition interlock (otype : option string) (output_is_on : bool)
    (current_time : Z) : M (option Msg) :=
  cond <- (if opt_is otype "on_off" then
             has <- has_output_types_key ;;
             ret (has && negb output_is_on)
           else ret false) ;;
  if cond then
    self <- get ;;
    match output_off_until self with
    | OffAt t =>
        if (t >? current_time)%Z then
          let off_seconds := t - current_time in
          ret (Some (MsgStayOff (unique_id self) (output_name self)
                       off_seconds))
        else ret None
    | _ => ret None
    end
  else ret None.

(** Lines 252-330: on for an amount.  [current_time + timedelta(...)] is
    the sum of the two integers. *)
Definition on_for_amount (e : Env) (amount min_off : Z)
    (output_is_on : bool) (current_time : Z) : M flow :=
  when (negb (min_off =? 0)%Z)
    (assign (set_off_until
               (OffAt (current_time + (Z.abs amount + min_off))))) ;;
  self <- get ;;
  if output_is_on && output_on_duration self then
    let remaining_time :=
      if (output_on_until self >? current_time)%Z
      then output_on_until self - current_time else 0 in
    let time_on := Z.abs (output_last_duration self) - remaining_time in
    let msg :=
      MsgAlreadyOnAmount (unique_id self) (output_name self)
        (Z.abs (output_last_duration self)) remaining_time time_on
        (Z.abs amount) in
    assign (set_on_until (current_time + Z.abs amount)) ;;
    assign (set_last_duration amount) ;;
    when (time_on >? 0)%Z
      (self <- get ;;
       let duration_on :=
         if (output_last_duration self <? 0)%Z then - time_on else time_on in
       let timestamp := env_utcnow e - Z.abs duration_on in
       write_db_start (unique_id self) (Some duration_on) (Some timestamp)) ;;
    ret (Return 0 msg)
  else if output_is_on && negb (output_on_duration self) then
    assign (set_on_duration true) ;;
    assign (set_on_until (current_time + Z.abs amount)) ;;
    assign (set_last_duration amount) ;;
    ret (Return 0 (MsgTurnIntoAmount (unique_id self) (output_name self)
                     (Z.abs amount)))
  else
    let msg := MsgOnFor (unique_id self) (output_name self) (Z.abs amount) in
    output_switch e "on" (Some "sec") (Some amount) ;;
    assign (set_on_until (current_time + Z.abs amount)) ;;
    assign (set_last_duration amount) ;;
    assign (set_on_duration true) ;;
    ret (Continue msg).

(** Lines 338-356: on without a duration. *)
Definition on_no_duration (e : Env) (output_is_on : bool)
    (current_time : Z) : M flow :=
  self <- get ;;
  if output_is_on && negb (output_force_command self) then
    ret (Return 1 (MsgAlreadyOn (unique_id self) (output_name self)))
  else
    when (match output_time_turned_on self with
          | None => true
          | Some _ => false
          end)
      (assign (set_time_turned_on (Some current_time))) ;;
    self <- get ;;
    let msg :=
      MsgOnAt (unique_id self) (output_name self)
        (output_time_turned_on self) in
    output_switch e "on" (Some "sec") None ;;
    ret (Continue msg).

(** Lines 209-356: signaled to turn the output on. *)
Definition on_branch (e : Env) (otype : option string) (amount min_off : Z)
    (output_is_on : bool) (current_time : Z) : M flow :=
  lock <- interlock otype output_is_on current_time ;;
  match lock with
  | Some msg => ret (Return 1 msg)
  | None =>
      self <- get ;;
      if opt_is otype "vol"
         && str_in (output_type self) (ot_volume (output_types self)) then
        output_switch e "on" (Some "vol") (Some amount) ;;
        ret (Continue (MsgVolume (unique_id self) (output_name self) amount))
      else if opt_is otype "pwm"
              && str_in (output_type self) (ot_pwm (output_types self)) then
        output_switch e "on" (Some "pwm") (Some amount) ;;
        ret (Continue (MsgDutyCycle (unique_id self) (output_name self)
                         amount))
      else if in_sec_or_None otype
              && str_in (output_type self) (ot_on_off (output_types self))
              && negb (amount =? 0)%Z then
        on_for_amount e amount min_off output_is_on current_time
      else
        cond <- (has <- has_output_types_key ;;
                 ret (has && on_off_in_information self
                      && (amount =? 0)%Z && in_sec_or_None otype)) ;;
        if cond then on_no_duration e output_is_on current_time
        else ret (Continue MsgEmpty)
  end.

(** Lines 361-408: signaled to turn the output off. *)
Definition off_branch (e : Env) (otype : option string) (current_time : Z)
    : M flow :=
  output_switch e "off" otype None ;;
  self <- get ;;
  let msg := MsgOffAt (unique_id self) (output_name self) (env_time e) in
  when (match output_time_turned_on self with
        | Some _ => true
        | None => false
        end || output_on_duration self)
    (let duration_sec : option Z := None in
     let timestamp : option Z := None in
     r <- (if output_on_duration self then
             let remaining_time :=
               if (output_on_until self >? current_time)%Z
               then output_on_until self - current_time else 0 in
             let duration_sec :=
               Z.abs (output_last_duration self) - remaining_time in
             let timestamp := env_utcnow e - duration_sec in
             let duration_sec :=
               if (output_last_duration self <? 0)%Z
               then - duration_sec else duration_sec in
             assign (set_on_duration false) ;;
             assign (set_on_until current_time) ;;
             ret (Some duration_sec, Some timestamp)
           else ret (duration_sec, timestamp)) ;;
     r <- (match output_time_turned_on self with
           | Some turned_on =>
               let duration_sec := current_time - turned_on in
               let timestamp := env_utcnow e - duration_sec in
               assign (set_time_turned_on None) ;;
               ret (Some duration_sec, Some timestamp)
           | None => ret r
           end) ;;
     write_db_start (unique_id self) (fst r) (snd r)) ;;
  assign (set_off_triggered false) ;;
  ret (Continue msg).

(** Lines 410-413, reached by the branches that did not return. *)
Definition finish (e : Env) (amount : Z) (trigger_conditionals : bool)
    (fl : flow) : M (Z * Msg) :=
  match fl with
  | Return code msg => ret (code, msg)
  | Continue msg =>
      when trigger_conditionals (check_triggers e amount) ;;
      ret (0, msg)
  end.

Definition on_states : list PyVal := [PStr "on"; PInt 1; PBool true].
Definition off_states : list PyVal := [PStr "off"; PInt 0; PBool false].

(** [output_on_off(state, output_type, amount, min_off,
    trigger_conditionals)]; [otype] is the parameter [output_type] (the
    attribute [self.output_type] keeps the name). *)
Definition output_on_off (e : Env) (state : PyVal) (otype : option string)
    (amount : option Z) (min_off : Z) (trigger_conditionals : bool)
    : M (Z * Msg) :=
  if negb (py_in state (on_states ++ off_states)) then
    ret (1, MsgBadState)
  else
    let state :=
      if py_in state on_states then PStr "on"
      else if py_in state off_states then PStr "off"
      else state in
    let current_time := env_now e in
    let amount := match amount with None => 0 | Some a => a end in
    let output_is_on := env_is_on e in
    if negb (env_is_setup e) then ret (1, MsgNotSetup)
    else
      fl <- (if py_eq state (PStr "on") then
               on_branch e otype amount min_off output_is_on current_time
             else if py_eq state (PStr "off") then
               off_branch e otype current_time
             else ret (Continue MsgEmpty)) ;;
      finish e amount trigger_conditionals fl.

(** ** [output_sec_currently_on] *)

Definition output_sec_currently_on (e : Env) (self : Output) : Z :=
  if negb (env_is_on e) then 0
  else
    let now := env_now e in
    if output_on_duration self then
      let left :=
        if (output_on_until self >? now)%Z
        then output_on_until self - now else 0 in
      Z.abs (output_last_duration self) - left
    else
      match output_time_turned_on self with
      | Some turned_on => now - turned_on
      | None => 0
      end.

(** ** Sequences of requests *)

(** One request, with the answers of the collaborators during it. *)
Record Call : Type := {
  c_env : Env;
  c_state : PyVal;
  c_otype : option string;
  c_amount : option Z;
  c_min_off : Z;
  c_trigger_conditionals : bool
}.

Definition call (c : Call) : M (Z * Msg) :=
  output_on_off (c_env c) (c_state c) (c_otype c) (c_amount c) (c_min_off c)
    (c_trigger_conditionals c).

(** The object after the requests [cs], made one after the other. *)
Fixpoint run_calls (self : Output) (cs : list Call) : Output :=
  match cs with
  | [] => self
  | c :: cs' => run_calls (r_self (call c self)) cs'
  end.

(** The object as [__init__] and [setup_on_off_output] leave it. *)
Definition fresh (output : OutputRow) (types : OutputTypes)
    (info : OutputInformation) (t0 t1 : Z) : Output :=
  setup_on_off_output info t1 (AbstractOutput_init output types t0).

(** The runtime states an output can be in. *)
Inductive reachable : Output -> Prop :=
| reach_fresh output types info t0 t1 :
    reachable (fresh output types info t0 t1)
| reach_call self c :
    reachable self -> reachable (r_self (call c self)).

(** ** Vocabulary of the statements *)

Definition is_on_request (state : PyVal) : bool := py_in state on_states.
Definition is_off_request (state : PyVal) : bool := py_in state off_states.

(** [amount] after [if amount is None: amount = 0]. *)
Definition amount_or_0 (amount : option Z) : Z :=
  match amount with
  | None => 0
  | Some a => a
  end.

(** The output's configured type is one of the on/off types. *)
Definition on_off_capable (self : Output) : bool :=
  str_in (output_type self) (ot_on_off (output_types self)).

(** Seconds left of the timed period at [now]. *)
Definition remaining (now : Z) (self : Output) : Z :=
  if (output_on_until self >? now)%Z then output_on_until self - now else 0.

(** Seconds the timed period has lasted at [now]. *)
Definition elapsed (now : Z) (self : Output) : Z :=
  Z.abs (output_last_duration self) - remaining now self.

(** [v] with the sign of [d] *)
Definition sign_matched (d v : Z) : Z := if (d <? 0)%Z then - v else v.

(** The samples handed to the duration recorder, in order. *)
Fixpoint samples_of (tr : list event) : list DurationSample :=
  match tr with
  | [] => []
  | EvWriteInflux s :: tr' => s :: samples_of tr'
  | _ :: tr' => samples_of tr'
  end.

(** The driver calls, in order. *)
Fixpoint switches_of (tr : list event) : list event :=
  match tr with
  | [] => []
  | EvSwitch st ot am :: tr' => EvSwitch st ot am :: switches_of tr'
  | _ :: tr' => switches_of tr'
  end.

(** How many times rule [id] was dispatched. *)
Fixpoint dispatches_of (id : string) (tr : list event) : nat :=
  match tr with
  | [] => O
  | EvTriggerAllActions id' _ :: tr' =>
      if String.eqb id' id then S (dispatches_of id tr')
      else dispatches_of id tr'
  | _ :: tr' => dispatches_of id tr'
  end.

(** Was the trigger evaluator entered with [amount]. *)
Definition triggers_checked (amount : Z) (tr : list event) : Prop :=
  In (EvCheckTriggers amount) tr.

(** [check_triggers] runs to its end: it calls [self.output_state] once
    per selected duty-cycle rule. *)
Definition triggers_ok (self : Output) (e : Env) : Prop :=
  select_trigger_output_pwm self e = [] \/ env_output_state e <> None.

(** The sample of a timed period ended at [now]. *)
Definition duration_sample (utcnow now : Z) (self : Output)
    : DurationSample :=
  {| ds_unique_id := unique_id self; ds_unit := "s";
     ds_value :=
       Some (sign_matched (output_last_duration self) (elapsed now self));
     ds_measure := "duration_time"; ds_channel := 0;
     ds_timestamp := Some (utcnow - elapsed now self) |}.

(** The sample of a run without duration begun at [turned_on]. *)
Definition indefinite_sample (utcnow now turned_on : Z) (self : Output)
    : DurationSample :=
  {| ds_unique_id := unique_id self; ds_unit := "s";
     ds_value := Some (now - turned_on);
     ds_measure := "duration_time"; ds_channel := 0;
     ds_timestamp := Some (utcnow - (now - turned_on)) |}.

(** [self] once lines 373-408 have run. *)
Definition switched_off (now : Z) (self : Output) : Output :=
  let s :=
    if output_on_duration self
    then set_on_until now (set_on_duration false self) else self in
  let s :=
    match output_time_turned_on self with
    | Some _ => set_time_turned_on None s
    | None => s
    end in
  set_off_triggered false s.

(** Is a field that starts as [None] set. *)
Definition is_set A (o : option A) : bool :=
  match o with
  | Some _ => true
  | None => false
  end.

(** The request [c] is an ON for an amount (line 249) that is carried out:
    the output is on already (lines 257 and 304) or the driver switches it
    on (line 327). *)
Definition starts_timed_run (self : Output) (c : Call) : bool :=
  is_on_request (c_state c) && env_is_setup (c_env c)
  && in_sec_or_None (c_otype c) && on_off_capable self
  && negb (amount_or_0 (c_amount c) =? 0)%Z
  && (env_is_on (c_env c) || negb (env_switch_raises (c_env c))).

(** The request [c] is an ON without duration (line 333) that gets to its
    driver call: the output is off, or [force_command] is set (line 338). *)
Definition switches_on_plain (self : Output) (c : Call) : bool :=
  is_on_request (c_state c) && env_is_setup (c_env c)
  && in_sec_or_None (c_otype c) && on_off_in_information self
  && (amount_or_0 (c_amount c) =? 0)%Z
  && negb (env_is_on (c_env c) && negb (output_force_command self)).

(** ... and the driver switches the output on (line 356). *)
Definition starts_indefinite_run (self : Output) (c : Call) : bool :=
  switches_on_plain self c && negb (env_switch_raises (c_env c)).

(** The request [c] is an OFF that the driver carries out (line 361). *)
Definition completes_off (c : Call) : bool :=
  is_off_request (c_state c) && env_is_setup (c_env c)
  && negb (env_switch_raises (c_env c)).

(** Was a request satisfying [starts] made with no completed OFF after it;
    [acc] answers for the requests before [cs]. *)
Fixpoint since_off (starts : Call -> bool) (cs : list Call) (acc : bool)
    : bool :=
  match cs with
  | [] => acc
  | c :: cs' =>
      since_off starts cs' (if completes_off c then false else acc || starts c)
  end.

(** No ON without duration of [cs] meets a driver that raises. *)
Definition plain_on_never_fails (self : Output) (cs : list Call) : bool :=
  forallb (fun c => negb (switches_on_plain self c
                          && env_switch_raises (c_env c))) cs.

(** [datetime] holds the years 1 to 9999: counted in seconds from
    1970-01-01 00:00:00, the instants from 719162 days before to 2932897
    days after. *)
Definition datetime_min : Z := - (719162 * 86400).
Definition datetime_end : Z := 2932897 * 86400.

(** [t] is an instant a [datetime] can hold. *)
Definition in_datetime_range (t : Z) : Prop :=
  datetime_min <= t < datetime_end.

(** Some 317 years, in seconds. *)
Definition moderate_span : Z := 10 ^ 10.

(** The request [c] is made within [moderate_span] of 1970 and asks for no
    more than that.  Served one after the other from set-up on, such
    requests compute no instant outside the range of [datetime]. *)
Definition moderate (c : Call) : Prop :=
  Z.abs (env_now (c_env c)) <= moderate_span
  /\ Z.abs (env_utcnow (c_env c)) <= moderate_span
  /\ Z.abs (amount_or_0 (c_amount c)) <= moderate_span
  /\ Z.abs (c_min_off c) <= moderate_span.

(** The instants the object keeps once it has served moderate requests. *)
Definition moderate_state (self : Output) : Prop :=
  (output_on_duration self = true ->
   Z.abs (output_on_until self) <= 2 * moderate_span)
  /\ Z.abs (output_last_duration self) <= moderate_span
  /\ (forall t, output_time_turned_on self = Some t ->
                Z.abs t <= moderate_span).

(** Every sample of [tr] is stamped with an instant a [datetime] can
    hold. *)
Definition stamped_in_range (tr : list event) : Prop :=
  Forall (fun s => forall t, ds_timestamp s = Some t -> in_datetime_range t)
         (samples_of tr).

(** The second loop of [check_triggers], run on [self]. *)
Definition pwm_loop (self : Output) (e : Env) : Run unit :=
  for_each (select_trigger_output_pwm self e) (pwm_body self e) self.

(** The events of the two loops. *)
Definition is_dispatch (ev : event) : Prop :=
  match ev with
  | EvTriggerAllActions _ _ => True
  | _ => False
  end.

(** The trace of lines 410-413. *)
Definition trigger_trace (e : Env) (amount : Z) (tc : bool) (s : Output)
    : list event :=
  if tc then r_trace (check_triggers e amount s) else [].

(** The configuration read by the body. *)
Definition same_config (s s' : Output) : Prop :=
  unique_id s' = unique_id s
  /\ output_name s' = output_name s
  /\ output_type s' = output_type s
  /\ output_force_command s' = output_force_command s
  /\ output_types s' = output_types s
  /\ OUTPUT_INFORMATION s' = OUTPUT_INFORMATION s.

(** [self] once line 254 has run. *)
Definition armed (now amount min_off : Z) (self : Output) : Output :=
  if negb (min_off =? 0)%Z
  then set_off_until (OffAt (now + (Z.abs amount + min_off))) self
  else self.

(** The sample handed over by lines 282-299. *)
Definition rearm_sample (e : Env) (amount now : Z) (self : Output)
    : DurationSample :=
  {| ds_unique_id := unique_id self; ds_unit := "s";
     ds_value := Some (sign_matched amount (elapsed now self));
     ds_measure := "duration_time"; ds_channel := 0;
     ds_timestamp :=
       Some (env_utcnow e - Z.abs (sign_matched amount (elapsed now self))) |}.

(** [self] once line 350 has run. *)
Definition turned_on_at (now : Z) (self : Output) : Output :=
  match output_time_turned_on self with
  | None => set_time_turned_on (Some now) self
  | Some _ => self
  end.

(** The rows of the table carrying the identifier of [t]. *)
Definition rows_of (t : Trigger.t) (e : Env) : list Trigger.t :=
  filter (fun r => String.eqb (Trigger.unique_id r) (Trigger.unique_id t))
         (env_triggers e).

(** ** A concrete output, for the examples *)

Module Scenario.

Definition types : OutputTypes :=
  {| ot_on_off := ["wired"; "command"];
     ot_pwm := ["pwm"];
     ot_volume := ["atlas_ezo_pmp"] |}.

Definition relay_row : OutputRow :=
  {| row_unique_id := "0a1b2c3d-relay";
     row_name := "Pump relay";
     row_output_type := "wired";
     row_force_command := false |}.

Definition relay_info : OutputInformation :=
  {| oi_output_types := Some ["on_off"] |}.

(** The relay right after set-up, at instant 0. *)
Definition relay : Output := fresh relay_row types relay_info 0 0.

(** The collaborators at local instant [now] (UTC runs 3600 ahead), the
    driver reporting [is_on] on entry and [is_on_after] to the trigger
    evaluator, over the trigger table [triggers]. *)
Definition env_at (now : Z) (is_on is_on_after raises : bool)
    (triggers : list Trigger.t) : Env :=
  {| env_now := now; env_utcnow := now + 3600; env_time := now;
     env_is_on := is_on; env_is_setup := true;
     env_switch_raises := raises; env_is_on_after := is_on_after;
     env_triggers := triggers; env_output_state := None |}.

(** [output_on_off('on', 'sec', amount, min_off)] at [now]. *)
Definition on_for (now amount min_off : Z) (is_on : bool) : Call :=
  {| c_env := env_at now is_on true false [];
     c_state := PStr "on"; c_otype := Some "sec";
     c_amount := Some amount; c_min_off := min_off;
     c_trigger_conditionals := true |}.

(** [output_on_off('on', output_type)] at [now]. *)
Definition plain_on (now : Z) (otype : option string) (is_on raises : bool)
    : Call :=
  {| c_env := env_at now is_on (negb raises) raises [];
     c_state := PStr "on"; c_otype := otype;
     c_amount := None; c_min_off := 0;
     c_trigger_conditionals := true |}.

(** [output_on_off('off')] at [now]. *)
Definition off (now : Z) (is_on : bool) : Call :=
  {| c_env := env_at now is_on false false [];
     c_state := PStr "off"; c_otype := None;
     c_amount := None; c_min_off := 0;
     c_trigger_conditionals := true |}.

(** A rule "on for more than 15 seconds" bound to the relay. *)
Definition rule_gt_15 : Trigger.t :=
  {| Trigger.unique_id := "7e57ab1e-rule";
     Trigger.name := "Long run";
     Trigger.trigger_type := "trigger_output";
     Trigger.unique_id_1 := "0a1b2c3d-relay";
     Trigger.is_activated := true;
     Trigger.output_state := "on_duration_greater_than";
     Trigger.output_duration := 15;
     Trigger.output_duty_cycle := 0 |}.

End Scenario.

(** ** [stop_output] and [shutdown] *)

(** The [for] loop of lines 114-116, inside the [try]: the calls made to
    [self.lock_release], in order, over the items of
    [self.lockfile.locked].  [lock_release] is [AbstractBaseController]'s;
    [release_raises] tells for which lock file it raises.  The bare
    [except] ends the loop at the first exception. *)
Fixpoint release_locks (release_raises : string -> bool)
    (items : list (string * bool)) : list string :=
  match items with
  | [] => []
  | (lockfile, lock_state) :: items' =>
      if lock_state then
        lockfile
        :: (if release_raises lockfile then []
            else release_locks release_raises items')
      else release_locks release_raises items'
  end.

(** [stop_output()]: the new [self.running] and the calls made to
    [self.lock_release].  [locked] is [self.lockfile.locked], [None] when
    reading it raises. *)
Definition stop_output (release_raises : string -> bool)
    (locked : option (list (string * bool))) : bool * list string :=
  let running := false in
  match locked with
  | None => (running, [])
  | Some items => (running, release_locks release_raises items)
  end.

(** [shutdown(shutdown_timer)], the log line aside. *)
Definition shutdown (release_raises : string -> bool)
    (locked : option (list (string * bool))) : bool * list string :=
  stop_output release_raises locked.

(** ** [setup_logger] *)

(** [__name__] *)
Definition module_name : string := "mycodo.outputs.base_output".

Inductive LogLevel : Type :=
| DEBUG
| INFO.

(** [setup_logger(testing, name, output_dev)]: the name handed to
    [logging.getLogger] and the level set, if one is.  [output_dev] carries
    [unique_id] and [log_level_debug]. *)
Definition setup_logger (testing : bool) (name : option string)
    (output_dev : option (string * bool)) : string * option LogLevel :=
  let name :=
    match name with
    | Some n => if String.eqb n "" then module_name else n
    | None => module_name
    end in
  match output_dev with
  | Some (dev_unique_id, log_level_debug) =>
      if negb testing then
        (String.append name
           (String.append "_" (split_dash_first dev_unique_id)),
         Some (if log_level_debug then DEBUG else INFO))
      else (name, None)
  | None => (name, None)
  end.

(** Does [s] hold a dash. *)
Fixpoint has_dash (s : string) : bool :=
  match s with
  | EmptyString => false
  | String c s' => Ascii.eqb c "-"%char || has_dash s'
  end.

(** The events a branch of [output_on_off] emits itself. *)
Definition is_switch_or_sample (ev : event) : Prop :=
  match ev with
  | EvSwitch _ _ _ | EvWriteInflux _ => True
  | _ => False
  end.

(** A dispatch made for an active rule of the table bound to [self]. *)
Definition dispatch_of_bound_rule (self : Output) (e : Env) (ev : event)
    : Prop :=
  match ev with
  | EvTriggerAllActions id _ =>
      exists t,
        In t (env_triggers e)
        /\ Trigger.unique_id t = id
        /\ Trigger.is_activated t = true
        /\ Trigger.unique_id_1 t = unique_id self
  | _ => False
  end.

(** The match conditions of lines 441-469, by rule kind. *)
Definition on_duration_matches (kind : string) (threshold amount : Z)
    : Prop :=
  (kind = "on_duration_none" /\ amount = 0)
  \/ (kind = "on_duration_any" /\ amount <> 0)
  \/ kind = "on_duration_none_any"
  \/ (kind = "on_duration_equal" /\ threshold = amount)
  \/ (kind = "on_duration_greater_than" /\ amount > threshold)
  \/ (kind = "on_duration_equal_greater_than" /\ amount >= threshold)
  \/ (kind = "on_duration_less_than" /\ amount < threshold)
  \/ (kind = "on_duration_equal_less_than" /\ amount <= threshold).

(** The match conditions of lines 513-529, by rule kind. *)
Definition duty_cycle_matches (duty_cycle : Duty) (kind : string)
    (threshold : Z) : Prop :=
  match duty_cycle with
  | DutyOff =>
      (kind = "equal" /\ threshold = 0) \/ (kind = "below" /\ threshold <> 0)
  | DutyVal v =>
      (kind = "above" /\ v > threshold)
      \/ (kind = "below" /\ v < threshold)
      \/ (kind = "equal" /\ v = threshold)
  end.

(** The call [self.control.trigger_all_actions(...)] of the second loop. *)
Definition pwm_action (self : Output) (e : Env) (duty_cycle : Duty)
    (each_trigger : Trigger.t) : event :=
  EvTriggerAllActions (Trigger.unique_id each_trigger)
    (TMsgPwm (env_time e)
       (split_dash_first (Trigger.unique_id each_trigger))
       (Trigger.name each_trigger) (Trigger.name each_trigger)
       (unique_id self) duty_cycle
       (Trigger.output_state each_trigger)
       (Trigger.output_duty_cycle each_trigger)).

(** * Properties *)

(** ** The monad and the loops *)

Lemma bind_run A B (m : M A) (f : A -> M B) self :
  bind m f self =
  match r_val (m self) with
  | inl x =>
      {| r_self := r_self (m self); r_trace := r_trace (m self);
         r_val := inl x |}
  | inr a =>
      {| r_self := r_self (f a (r_self (m self)));
         r_trace := r_trace (m self) ++ r_trace (f a (r_self (m self)));
         r_val := r_val (f a (r_self (m self))) |}
  end.
Proof.
  unfold bind. destruct (m self) as [s1 t1 [x|a]]; cbn; [reflexivity|].
  destruct (f a s1); reflexivity.
Qed.

Lemma for_each_emit A (l : list A) (f : A -> event) s :
  for_each l (fun x => emit (f x)) s =
  {| r_self := s; r_trace := map f l; r_val := inr tt |}.
Proof.
  revert s. induction l as [|x l IH]; intros s; cbn; [reflexivity|].
  unfold bind. cbn. rewrite IH. reflexivity.
Qed.

Lemma for_each_self A (l : list A) (body : A -> M unit) :
  (forall x s, r_self (body x s) = s) ->
  forall s, r_self (for_each l body s) = s.
Proof.
  intros Hb. induction l as [|x l IH]; intros s; cbn.
  - reflexivity.
  - rewrite bind_run. destruct (r_val (body x s)) eqn:E; cbn.
    + apply Hb.
    + rewrite IH. apply Hb.
Qed.

Lemma for_each_trace_Forall A (P : event -> Prop) (l : list A)
    (body : A -> M unit) :
  (forall x s, In x l -> Forall P (r_trace (body x s))) ->
  forall s, Forall P (r_trace (for_each l body s)).
Proof.
  intros Hb. induction l as [|x l IH]; intros s; cbn.
  - constructor.
  - rewrite bind_run. destruct (r_val (body x s)) eqn:E; cbn.
    + apply Hb. now left.
    + apply Forall_app. split.
      * apply Hb. now left.
      * apply IH. intros y s' Hy. apply Hb. now right.
Qed.

Lemma for_each_val A (l : list A) (body : A -> M unit) :
  (forall x s, r_val (body x s) = inr tt) ->
  forall s, r_val (for_each l body s) = inr tt.
Proof.
  intros Hb. induction l as [|x l IH]; intros s; cbn; [reflexivity|].
  rewrite bind_run, Hb. cbn. apply IH.
Qed.

(** ** The trigger evaluator, as one run *)

Lemma pwm_body_self self e x s : r_self (pwm_body self e x s) = s.
Proof.
  unfold pwm_body, bind, output_state_call.
  destruct (env_output_state e); cbn; [|reflexivity].
  destruct (negb _); reflexivity.
Qed.

Lemma check_triggers_run e amount self :
  check_triggers e amount self =
  {| r_self := self;
     r_trace :=
       EvCheckTriggers amount
       :: map (output_action self e) (select_trigger_output self e amount)
       ++ r_trace (pwm_loop self e);
     r_val := r_val (pwm_loop self e) |}.
Proof.
  unfold check_triggers, pwm_loop, bind, get. cbn.
  rewrite for_each_emit.
  pose proof (for_each_self (select_trigger_output_pwm self e)
                (pwm_body self e) (pwm_body_self self e) self) as Hs.
  destruct (for_each _ (pwm_body self e) self) as [s2 t2 v2].
  cbn in *. subst s2. reflexivity.
Qed.

Lemma check_triggers_self e amount self :
  r_self (check_triggers e amount self) = self.
Proof. rewrite check_triggers_run. reflexivity. Qed.

Lemma pwm_loop_returns self e :
  triggers_ok self e -> r_val (pwm_loop self e) = inr tt.
Proof.
  unfold triggers_ok, pwm_loop. intros [H|H].
  - rewrite H. reflexivity.
  - apply for_each_val. intros x s. unfold pwm_body, bind, output_state_call.
    destruct (env_output_state e); [|congruence]. cbn.
    destruct (negb _); reflexivity.
Qed.

Lemma check_triggers_returns e amount self :
  triggers_ok self e -> r_val (check_triggers e amount self) = inr tt.
Proof.
  intros H. rewrite check_triggers_run. cbn. now apply pwm_loop_returns.
Qed.

Lemma samples_of_app tr1 tr2 :
  samples_of (tr1 ++ tr2) = samples_of tr1 ++ samples_of tr2.
Proof.
  induction tr1 as [|ev tr1 IH]; cbn; [reflexivity|].
  destruct ev; cbn; rewrite IH; reflexivity.
Qed.

Lemma switches_of_app tr1 tr2 :
  switches_of (tr1 ++ tr2) = switches_of tr1 ++ switches_of tr2.
Proof.
  induction tr1 as [|ev tr1 IH]; cbn; [reflexivity|].
  destruct ev; cbn; rewrite IH; reflexivity.
Qed.

Lemma dispatches_no_samples tr :
  Forall is_dispatch tr -> samples_of tr = [] /\ switches_of tr = [].
Proof.
  induction 1 as [|ev tr Hev _ IH]; cbn; [now split|].
  destruct ev; cbn in Hev; try contradiction. exact IH.
Qed.

Lemma pwm_loop_dispatches self e :
  Forall is_dispatch (r_trace (pwm_loop self e)).
Proof.
  unfold pwm_loop. apply for_each_trace_Forall.
  intros x s _. unfold pwm_body, bind, output_state_call.
  destruct (env_output_state e); cbn; [|constructor].
  destruct (negb _); cbn; repeat constructor.
Qed.

(** After its first event the evaluator only dispatches. *)
Lemma check_triggers_trace e amount self :
  exists tl,
    r_trace (check_triggers e amount self) = EvCheckTriggers amount :: tl
    /\ Forall is_dispatch tl.
Proof.
  rewrite check_triggers_run. cbn. eexists. split; [reflexivity|].
  apply Forall_app. split.
  - apply Forall_forall. intros ev Hin. apply in_map_iff in Hin.
    destruct Hin as [x [<- _]]. exact I.
  - apply pwm_loop_dispatches.
Qed.

(** ** Normalising [state] *)

Lemma off_request_not_on state :
  is_off_request state = true -> is_on_request state = false.
Proof.
  unfold is_off_request, is_on_request, py_in, on_states, off_states.
  destruct state as [s|z|b|]; cbn.
  - destruct (String.eqb_spec s "off") as [->|]; [reflexivity|discriminate].
  - destruct (Z.eqb_spec z 0) as [->|]; [reflexivity|discriminate].
  - destruct b; [discriminate|reflexivity].
  - discriminate.
Qed.

Lemma output_on_off_on_request e state otype amount min_off tc self :
  is_on_request state = true ->
  env_is_setup e = true ->
  output_on_off e state otype amount min_off tc self =
  bind (on_branch e otype (amount_or_0 amount) min_off (env_is_on e)
          (env_now e))
       (finish e (amount_or_0 amount) tc) self.
Proof.
  unfold is_on_request, output_on_off, py_in. intros Hon Hs.
  rewrite existsb_app, Hon, Hs. reflexivity.
Qed.

Lemma output_on_off_off_request e state otype amount min_off tc self :
  is_off_request state = true ->
  env_is_setup e = true ->
  output_on_off e state otype amount min_off tc self =
  bind (off_branch e otype (env_now e))
       (finish e (amount_or_0 amount) tc) self.
Proof.
  intros Hoff Hs. pose proof (off_request_not_on _ Hoff) as Hon.
  unfold is_on_request, is_off_request, py_in in *.
  unfold output_on_off, py_in.
  rewrite existsb_app, Hon, Hoff, Hs. reflexivity.
Qed.

(** ** Evaluating a method body *)

#[local] Arguments check_triggers : simpl never.

Ltac unfold_py :=
  unfold on_branch, off_branch, on_for_amount, on_no_duration,
    interlock, has_output_types_key, output_switch, write_db_start,
    when, assign, get, emit, ret, raise, bind.

Lemma bind_returned A B (m : M A) (f : A -> M B) self s1 t1 a :
  m self = {| r_self := s1; r_trace := t1; r_val := inr a |} ->
  bind m f self =
  {| r_self := r_self (f a s1);
     r_trace := t1 ++ r_trace (f a s1);
     r_val := r_val (f a s1) |}.
Proof. intros H. unfold bind. rewrite H. destruct (f a s1); reflexivity. Qed.

Lemma bind_raised A B (m : M A) (f : A -> M B) self s1 t1 x :
  m self = {| r_self := s1; r_trace := t1; r_val := inl x |} ->
  bind m f self = {| r_self := s1; r_trace := t1; r_val := inl x |}.
Proof. intros H. unfold bind. rewrite H. reflexivity. Qed.

Lemma finish_self e amount tc fl s : r_self (finish e amount tc fl s) = s.
Proof.
  destruct fl, tc; cbn; try reflexivity.
  unfold when, bind. rewrite check_triggers_run.
  destruct (r_val (pwm_loop s e)); reflexivity.
Qed.

Lemma finish_return e amount tc code msg s :
  finish e amount tc (Return code msg) s =
  {| r_self := s; r_trace := []; r_val := inr (code, msg) |}.
Proof. reflexivity. Qed.

Lemma finish_continue_trace e amount tc msg s :
  r_trace (finish e amount tc (Continue msg) s) = trigger_trace e amount tc s.
Proof.
  unfold trigger_trace. destruct tc; cbn; [|reflexivity].
  unfold when, bind. rewrite check_triggers_run.
  destruct (r_val (pwm_loop s e)); cbn; [reflexivity|].
  now rewrite app_nil_r.
Qed.

Lemma finish_continue_val e amount tc msg s :
  r_val (finish e amount tc (Continue msg) s) =
  if tc then
    match r_val (check_triggers e amount s) with
    | inl x => inl x
    | inr _ => inr (0, msg)
    end
  else inr (0, msg).
Proof.
  destruct tc; cbn; [|reflexivity].
  unfold when, bind. rewrite check_triggers_run.
  destruct (r_val (pwm_loop s e)); reflexivity.
Qed.

Lemma finish_continue_returns e amount tc msg s :
  tc = false \/ triggers_ok s e ->
  r_val (finish e amount tc (Continue msg) s) = inr (0, msg).
Proof.
  intros H. rewrite finish_continue_val. destruct tc; [|reflexivity].
  destruct H as [H|H]; [discriminate|].
  now rewrite check_triggers_returns.
Qed.

Lemma finish_val_code e amount tc fl s code msg :
  r_val (finish e amount tc fl s) = inr (code, msg) ->
  match fl with
  | Return c m => c = code /\ m = msg
  | Continue m => code = 0 /\ m = msg
  end.
Proof.
  destruct fl as [c m|m].
  - cbn. intros H. inversion H. now split.
  - rewrite finish_continue_val. destruct tc.
    + destruct (r_val (check_triggers e amount s)); [discriminate|].
      intros H. inversion H. now split.
    + intros H. inversion H. now split.
Qed.

Lemma triggers_ok_same_id s s' e :
  unique_id s' = unique_id s -> triggers_ok s e -> triggers_ok s' e.
Proof.
  unfold triggers_ok, select_trigger_output_pwm. intros ->. exact (fun H => H).
Qed.

(** ** The off branch *)

Lemma off_branch_raises e otype now self :
  env_switch_raises e = true ->
  off_branch e otype now self =
  {| r_self := self; r_trace := [EvSwitch "off" otype None];
     r_val := inl DriverError |}.
Proof. intros H. unfold_py. cbn. rewrite H. reflexivity. Qed.

Lemma off_branch_returns e otype now self :
  env_switch_raises e = false ->
  exists s' tl,
    off_branch e otype now self =
    {| r_self := s'; r_trace := EvSwitch "off" otype None :: tl;
       r_val :=
         inr (Continue (MsgOffAt (unique_id self) (output_name self)
                          (env_time e))) |}
    /\ output_off_triggered s' = false
    /\ unique_id s' = unique_id self.
Proof.
  intros H. unfold_py. cbn. rewrite H. cbn.
  destruct (output_time_turned_on self), (output_on_duration self); cbn;
    do 2 eexists; (split; [reflexivity|split; reflexivity]).
Qed.

(** C6: an OFF request on a set-up output calls the driver with ['off']
    before anything else, whatever [off_until] and the current mode are;
    whenever the call returns, it returns code 0 with [off_triggered]
    false; and it does return so once neither the driver nor the trigger
    evaluator raises. *)
Theorem off_always_switches_and_clears e state otype amount min_off tc self :
  is_off_request state = true ->
  env_is_setup e = true ->
  let r := output_on_off e state otype amount min_off tc self in
  (exists tl, r_trace r = EvSwitch "off" otype None :: tl)
  /\ (forall code msg,
        r_val r = inr (code, msg) ->
        code = 0 /\ output_off_triggered (r_self r) = false)
  /\ (env_switch_raises e = false -> output_off_triggered (r_self r) = false)
  /\ (env_switch_raises e = false ->
      tc = false \/ triggers_ok self e ->
      r_val r =
        inr (0, MsgOffAt (unique_id self) (output_name self) (env_time e))).
Proof.
  intros Hoff Hs r. subst r.
  rewrite (output_on_off_off_request _ _ _ _ _ _ _ Hoff Hs).
  destruct (env_switch_raises e) eqn:Hr.
  - rewrite (bind_raised _ _ _ (off_branch_raises _ _ _ _ Hr)). cbn.
    repeat split; try (eexists; reflexivity); discriminate.
  - destruct (off_branch_returns e otype (env_now e) self Hr)
      as (s' & tl & Hrun & Htrig & Hid).
    rewrite (bind_returned _ _ _ Hrun). cbn [r_self r_trace r_val app].
    rewrite finish_self.
    split; [eexists; reflexivity|].
    split; [|split].
    + intros code msg H. apply finish_val_code in H. cbn in H. tauto.
    + intros _. exact Htrig.
    + intros _ Hok. apply finish_continue_returns.
      destruct Hok as [Hok|Hok]; [now left|right].
      now apply (triggers_ok_same_id _ Hid).
Qed.

Lemma off_always_switches_and_clears_witness :
  let self :=
    run_calls Scenario.relay
      [Scenario.on_for 0 20 60 false] in
  let r := call (Scenario.off 5 true) self in
  output_off_until self = OffAt 80
  /\ (exists tl, r_trace r = EvSwitch "off" None None :: tl)
  /\ output_off_triggered (r_self r) = false
  /\ r_val r = inr (0, MsgOffAt "0a1b2c3d-relay" "Pump relay" 5).
Proof.
  intros self r.
  destruct (@off_always_switches_and_clears
              (Scenario.env_at 5 true false false []) (PStr "off") None None
              0 true self)
    as (H1 & _ & H2 & H3).
  - reflexivity.
  - reflexivity.
  - split; [reflexivity|]. split; [exact H1|]. split; [exact (H2 eq_refl)|].
    apply H3; [reflexivity|]. right. left. reflexivity.
Defined.

(** ** What every call preserves *)

#[local] Arguments on_for_amount : simpl never.
#[local] Arguments on_no_duration : simpl never.
#[local] Arguments String.eqb : simpl never.
#[local] Arguments Z.eqb : simpl never.
#[local] Arguments Z.gtb : simpl never.
#[local] Arguments Z.ltb : simpl never.
#[local] Arguments Z.abs : simpl never.
#[local] Arguments Z.add : simpl never.
#[local] Arguments Z.sub : simpl never.
#[local] Arguments Z.opp : simpl never.

(** Case analysis on every test the body makes. *)
Ltac crunch :=
  repeat (cbn in *;
          match goal with
          | |- context [match ?x with _ => _ end] =>
              lazymatch x with
              | context [match _ with _ => _ end] => fail
              | _ => destruct x eqn:?
              end
          end).

Lemma bind_finish_self (m : M flow) e amount tc self :
  r_self (bind m (finish e amount tc) self) = r_self (m self).
Proof.
  unfold bind. destruct (m self) as [s1 t1 [x|fl]]; cbn; [reflexivity|].
  pose proof (finish_self e amount tc fl s1) as H.
  destruct (finish e amount tc fl s1). exact H.
Qed.

Lemma output_on_off_self e state otype amount min_off tc self :
  r_self (output_on_off e state otype amount min_off tc self) = self
  \/ (is_on_request state = true /\ env_is_setup e = true
      /\ r_self (output_on_off e state otype amount min_off tc self) =
         r_self (on_branch e otype (amount_or_0 amount) min_off (env_is_on e)
                   (env_now e) self))
  \/ (is_off_request state = true /\ env_is_setup e = true
      /\ r_self (output_on_off e state otype amount min_off tc self) =
         r_self (off_branch e otype (env_now e) self)).
Proof.
  destruct (env_is_setup e) eqn:Hs.
  - destruct (is_on_request state) eqn:Hon.
    + right. left. rewrite output_on_off_on_request by assumption.
      rewrite bind_finish_self; auto. 
    + destruct (is_off_request state) eqn:Hoff.
      * right. right. rewrite output_on_off_off_request by assumption.
        rewrite bind_finish_self; auto.
      * left. unfold output_on_off, is_on_request, is_off_request, py_in in *.
        rewrite existsb_app, Hon, Hoff. reflexivity.
  - left. unfold output_on_off. destruct (negb _); [reflexivity|].
    rewrite Hs. reflexivity.
Qed.

Ltac eqb_to_prop :=
  repeat match goal with
         | H : (_ =? _)%Z = true |- _ => apply Z.eqb_eq in H
         | H : (_ =? _)%Z = false |- _ => apply Z.eqb_neq in H
         | H : (_ >? _)%Z = true |- _ => apply Z.gtb_gt in H
         | H : (_ >? _)%Z = false |- _ => rewrite Z.gtb_ltb, Z.ltb_ge in H
         | H : (_ <? _)%Z = true |- _ => apply Z.ltb_lt in H
         | H : (_ <? _)%Z = false |- _ => apply Z.ltb_ge in H
         end.

Lemma on_branch_config e otype amount min_off is_on now self :
  same_config self (r_self (on_branch e otype amount min_off is_on now self)).
Proof.
  unfold same_config. unfold_py. destruct self. crunch.
  all: repeat split.
Qed.

Lemma off_branch_config e otype now self :
  same_config self (r_self (off_branch e otype now self)).
Proof.
  unfold same_config. unfold_py. destruct self. crunch.
  all: repeat split.
Qed.

Lemma same_config_refl s : same_config s s.
Proof. repeat split. Qed.

Lemma call_config c self : same_config self (r_self (call c self)).
Proof.
  unfold call.
  destruct (output_on_off_self (c_env c) (c_state c) (c_otype c) (c_amount c)
              (c_min_off c) (c_trigger_conditionals c) self)
    as [-> | [(_ & _ & ->) | (_ & _ & ->)]].
  - apply same_config_refl.
  - apply on_branch_config.
  - apply off_branch_config.
Qed.




(** ** The on branch, path by path *)

Lemma sec_or_None_is_not otype :
  in_sec_or_None otype = true ->
  opt_is otype "on_off" = false
  /\ opt_is otype "vol" = false
  /\ opt_is otype "pwm" = false.
Proof.
  destruct otype as [s|]; cbn; [|now repeat split].
  intros H. apply String.eqb_eq in H. subst s. now repeat split.
Qed.

Lemma on_branch_timed e otype amount min_off is_on now self :
  in_sec_or_None otype = true ->
  on_off_capable self = true ->
  amount <> 0 ->
  on_branch e otype amount min_off is_on now self =
  on_for_amount e amount min_off is_on now self.
Proof.
  intros Hsec Hcap Ha.
  destruct (sec_or_None_is_not _ Hsec) as (Hoo & Hvol & Hpwm).
  apply Z.eqb_neq in Ha. unfold on_off_capable in Hcap.
  unfold on_branch, interlock, bind, get, ret.
  rewrite Hoo. cbn. rewrite Hvol, Hpwm, Hsec, Hcap, Ha. cbn.
  destruct (on_for_amount e amount min_off is_on now self). reflexivity.
Qed.

Lemma on_for_amount_rearm e amount min_off now self :
  output_on_duration self = true ->
  on_for_amount e amount min_off true now self =
  {| r_self :=
       set_last_duration amount
         (set_on_until (now + Z.abs amount) (armed now amount min_off self));
     r_trace :=
       if (elapsed now self >? 0)%Z
       then [EvWriteInflux (rearm_sample e amount now self)] else [];
     r_val :=
       inr (Return 0
              (MsgAlreadyOnAmount (unique_id self) (output_name self)
                 (Z.abs (output_last_duration self)) (remaining now self)
                 (elapsed now self) (Z.abs amount))) |}.
Proof.
  intros Hd. unfold rearm_sample, sign_matched, elapsed, remaining, armed.
  unfold_py. destruct self. cbn in *. subst.
  destruct (negb (min_off =? 0)%Z); cbn;
    destruct (output_on_until0 >? now)%Z; cbn;
    match goal with
    | |- context [if ?b then _ else _] => destruct b
    end; cbn; reflexivity.
Qed.

Lemma on_for_amount_convert e amount min_off now self :
  output_on_duration self = false ->
  on_for_amount e amount min_off true now self =
  {| r_self :=
       set_last_duration amount
         (set_on_until (now + Z.abs amount)
            (set_on_duration true (armed now amount min_off self)));
     r_trace := [];
     r_val :=
       inr (Return 0
              (MsgTurnIntoAmount (unique_id self) (output_name self)
                 (Z.abs amount))) |}.
Proof.
  intros Hd. unfold armed. unfold_py. destruct self. cbn in *. subst.
  destruct (negb (min_off =? 0)%Z); reflexivity.
Qed.

Lemma on_for_amount_switch e amount min_off now self :
  on_for_amount e amount min_off false now self =
  if env_switch_raises e then
    {| r_self := armed now amount min_off self;
       r_trace := [EvSwitch "on" (Some "sec") (Some amount)];
       r_val := inl DriverError |}
  else
    {| r_self :=
         set_on_duration true
           (set_last_duration amount
              (set_on_until (now + Z.abs amount)
                 (armed now amount min_off self)));
       r_trace := [EvSwitch "on" (Some "sec") (Some amount)];
       r_val :=
         inr (Continue (MsgOnFor (unique_id self) (output_name self)
                          (Z.abs amount))) |}.
Proof.
  unfold armed. unfold_py. destruct self. cbn.
  destruct (negb (min_off =? 0)%Z), (env_switch_raises e); reflexivity.
Qed.

Lemma on_branch_plain e otype amount min_off is_on now self :
  in_sec_or_None otype = true ->
  on_off_in_information self = true ->
  amount = 0 ->
  on_branch e otype amount min_off is_on now self =
  on_no_duration e is_on now self.
Proof.
  intros Hsec Hinfo ->.
  destruct (sec_or_None_is_not _ Hsec) as (Hoo & Hvol & Hpwm).
  unfold on_branch, interlock, has_output_types_key, bind, get, ret.
  rewrite Hoo. cbn. rewrite Hvol, Hpwm, Hsec. cbn.
  rewrite andb_false_r. unfold on_off_in_information in *.
  destruct (OUTPUT_INFORMATION self) as [oi|]; [|discriminate].
  destruct (oi_output_types oi); [|discriminate]. cbn.
  rewrite Hinfo, Z.eqb_refl. cbn.
  destruct (on_no_duration e is_on now self). reflexivity.
Qed.

Lemma on_no_duration_run e is_on now self :
  on_no_duration e is_on now self =
  if is_on && negb (output_force_command self) then
    {| r_self := self; r_trace := [];
       r_val :=
         inr (Return 1 (MsgAlreadyOn (unique_id self) (output_name self))) |}
  else if env_switch_raises e then
    {| r_self := turned_on_at now self;
       r_trace := [EvSwitch "on" (Some "sec") None];
       r_val := inl DriverError |}
  else
    {| r_self := turned_on_at now self;
       r_trace := [EvSwitch "on" (Some "sec") None];
       r_val :=
         inr (Continue
                (MsgOnAt (unique_id self) (output_name self)
                   (output_time_turned_on (turned_on_at now self)))) |}.
Proof.
  unfold turned_on_at. unfold_py. destruct self. cbn.
  destruct (is_on && negb output_force_command0); [reflexivity|].
  destruct output_time_turned_on0, (env_switch_raises e); reflexivity.
Qed.

Lemma bind_finish_returned (m : M flow) e amount tc self s1 t1 fl :
  m self = {| r_self := s1; r_trace := t1; r_val := inr fl |} ->
  bind m (finish e amount tc) self =
  {| r_self := s1;
     r_trace := t1 ++ r_trace (finish e amount tc fl s1);
     r_val := r_val (finish e amount tc fl s1) |}.
Proof.
  intros H. rewrite (bind_returned _ _ _ H). now rewrite finish_self.
Qed.

Lemma reachable_run_calls self cs :
  reachable self -> reachable (run_calls self cs).
Proof.
  revert self. induction cs as [|c cs IH]; intros self H; cbn; [exact H|].
  apply IH. now constructor.
Qed.

(** ** Re-arming a timed output *)



(** C8: on a re-arm the sample takes the sign of the amount just asked for:
    [last_duration] is overwritten (line 278) before its sign is read
    (line 285).  A forward run of 20 re-armed after 5 seconds with -10 is
    recorded as -5. *)
Theorem rearm_sample_takes_new_sign :
  let self := r_self (call (Scenario.on_for 0 20 0 false) Scenario.relay) in
  let r := call (Scenario.on_for 5 (-10) 0 true) self in
  output_last_duration self = 20
  /\ elapsed 5 self = 5
  /\ map ds_value (samples_of (r_trace r)) = [Some (-5)].
Proof. vm_compute. repeat split. Qed.

(** An ON without duration never reads [off_until]: with [output_type]
    ['sec'] or none the test of line 212 is false, and on an output that is
    off (and not raising) the driver is called whatever [off_until] holds. *)
Lemma plain_on_ignores_off_until e state otype amount min_off tc self :
  is_on_request state = true ->
  env_is_setup e = true ->
  in_sec_or_None otype = true ->
  on_off_in_information self = true ->
  amount_or_0 amount = 0 ->
  env_is_on e = false ->
  let r := output_on_off e state otype amount min_off tc self in
  exists tl, r_trace r = EvSwitch "on" (Some "sec") None :: tl.
Proof.
  intros Hon Hs Hsec Hinfo Ha Hoff r. subst r.
  rewrite (output_on_off_on_request _ _ _ _ _ _ _ Hon Hs), Hoff.
  assert (E := @on_branch_plain e otype (amount_or_0 amount) min_off false
                 (env_now e) self Hsec Hinfo Ha).
  rewrite on_no_duration_run in E. cbn [andb] in E.
  destruct (env_switch_raises e).
  - rewrite (bind_raised _ _ _ E). eexists. reflexivity.
  - rewrite (bind_finish_returned _ _ _ _ _ E). eexists. reflexivity.
Qed.

(** C1: an ON request without duration made while [off_until] lies ahead
    is not refused.  The minimum-off check of lines 212-228 is made for
    [output_type == 'on_off'] only; with [output_type] ['sec'] the request
    goes to line 333 and the output is switched on: after 20 seconds on
    with [min_off = 60] from instant 0 and an OFF at 5, [off_until] is 80
    and an ON at 6 returns code 0 with the driver called. *)
Theorem plain_on_during_min_off :
  let self :=
    run_calls Scenario.relay
      [Scenario.on_for 0 20 60 false; Scenario.off 5 true] in
  let r := call (Scenario.plain_on 6 (Some "sec") false false) self in
  output_off_until self = OffAt 80
  /\ r_val r = inr (0, MsgOnAt "0a1b2c3d-relay" "Pump relay" (Some 6))
  /\ switches_of (r_trace r) = [EvSwitch "on" (Some "sec") None]
  /\ output_time_turned_on self = None
  /\ output_time_turned_on (r_self r) = Some 6.
Proof. vm_compute. repeat split. Qed.

(** ** What the trigger evaluator adds to a trace *)

Lemma trigger_trace_no_samples e amount tc s :
  samples_of (trigger_trace e amount tc s) = []
  /\ switches_of (trigger_trace e amount tc s) = [].
Proof.
  unfold trigger_trace. destruct tc; [|now split].
  destruct (check_triggers_trace e amount s) as (tl & -> & Htl).
  cbn. now apply dispatches_no_samples.
Qed.

Lemma trigger_trace_checked e amount s :
  triggers_checked amount (trigger_trace e amount true s).
Proof.
  unfold trigger_trace, triggers_checked.
  destruct (check_triggers_trace e amount s) as (tl & -> & _). now left.
Qed.

Lemma for_each_val_cases A (l : list A) (body : A -> M unit) :
  (forall x s,
      r_val (body x s) = inr tt \/ r_val (body x s) = inl TypeError) ->
  forall s,
    r_val (for_each l body s) = inr tt
    \/ r_val (for_each l body s) = inl TypeError.
Proof.
  intros Hb. induction l as [|x l IH]; intros s; cbn; [now left|].
  rewrite bind_run. destruct (Hb x s) as [-> | ->]; cbn; [apply IH|now right].
Qed.

Lemma pwm_loop_val self e :
  r_val (pwm_loop self e) = inr tt \/ r_val (pwm_loop self e) = inl TypeError.
Proof.
  unfold pwm_loop. apply for_each_val_cases. intros x s.
  unfold pwm_body, bind, output_state_call.
  destruct (env_output_state e); cbn; [|now right].
  destruct (negb (pwm_trigger_trigger d x)); now left.
Qed.

Lemma finish_not_driver_error e amount tc fl s :
  r_val (finish e amount tc fl s) <> inl DriverError.
Proof.
  destruct fl as [c m|m]; [discriminate|].
  rewrite finish_continue_val. destruct tc; [|discriminate].
  rewrite check_triggers_run. cbn [r_val].
  destruct (pwm_loop_val s e) as [-> | ->]; discriminate.
Qed.

(** ** The off branch, in full *)

Lemma off_branch_run e otype now self :
  env_switch_raises e = false ->
  off_branch e otype now self =
  {| r_self := switched_off now self;
     r_trace :=
       EvSwitch "off" otype None
       :: match output_time_turned_on self with
          | Some turned_on =>
              [EvWriteInflux
                 (indefinite_sample (env_utcnow e) now turned_on self)]
          | None =>
              if output_on_duration self
              then [EvWriteInflux (duration_sample (env_utcnow e) now self)]
              else []
          end;
     r_val :=
       inr (Continue (MsgOffAt (unique_id self) (output_name self)
                        (env_time e))) |}.
Proof.
  intros H. unfold switched_off, indefinite_sample, duration_sample,
    sign_matched, elapsed, remaining.
  unfold_py. cbn. rewrite H. destruct self. cbn.
  destruct output_time_turned_on0, output_on_duration0; cbn; try reflexivity.
  all: destruct (output_on_until0 >? now)%Z; cbn;
    destruct (output_last_duration0 <? 0)%Z; reflexivity.
Qed.

(** C7, as the code has it: an OFF request while the output is in duration
    mode only ([time_turned_on] unset) hands the recorder one sample, of
    value [|last_duration| - remaining] with the sign of [last_duration],
    stamped [utcnow] minus the unsigned value, and sets
    [on_duration = false], [on_until = now]; when [time_turned_on] is set as
    well, the one sample is [now - time_turned_on] instead and both modes
    are cleared; when neither mode is active no sample is emitted. *)
Theorem off_records_the_run e state otype amount min_off tc self :
  is_off_request state = true ->
  env_is_setup e = true ->
  env_switch_raises e = false ->
  let r := output_on_off e state otype amount min_off tc self in
  let now := env_now e in
  (output_on_duration self = true ->
   output_time_turned_on self = None ->
   samples_of (r_trace r) =
     [ {| ds_unique_id := unique_id self; ds_unit := "s";
          ds_value :=
            Some (sign_matched (output_last_duration self)
                    (elapsed now self));
          ds_measure := "duration_time"; ds_channel := 0;
          ds_timestamp := Some (env_utcnow e - elapsed now self) |} ]
   /\ output_on_duration (r_self r) = false
   /\ output_on_until (r_self r) = now)
  /\ (output_on_duration self = true ->
      forall turned_on,
        output_time_turned_on self = Some turned_on ->
        samples_of (r_trace r) =
          [ {| ds_unique_id := unique_id self; ds_unit := "s";
               ds_value := Some (now - turned_on);
               ds_measure := "duration_time"; ds_channel := 0;
               ds_timestamp :=
                 Some (env_utcnow e - (now - turned_on)) |} ]
        /\ output_on_duration (r_self r) = false
        /\ output_on_until (r_self r) = now
        /\ output_time_turned_on (r_self r) = None)
  /\ (output_on_duration self = false ->
      output_time_turned_on self = None ->
      samples_of (r_trace r) = []).
Proof.
  intros Hoff Hs Hr r now. subst r now.
  rewrite (output_on_off_off_request _ _ _ _ _ _ _ Hoff Hs).
  rewrite (bind_finish_returned _ _ _ _ _ (off_branch_run _ otype (env_now e) self Hr)).
  cbn [r_self r_trace r_val]. rewrite finish_continue_trace.
  change (EvSwitch "off" otype None :: ?l ++ ?t)
    with ((EvSwitch "off" otype None :: l) ++ t).
  rewrite samples_of_app.
  rewrite (proj1 (trigger_trace_no_samples _ _ _ _)), app_nil_r.
  unfold switched_off.
  split; [|split].
  - intros Hd Ht. rewrite Hd, Ht. repeat split.
  - intros Hd t0 Ht. rewrite Hd, Ht. repeat split.
  - intros Hd Ht. rewrite Hd, Ht. reflexivity.
Qed.

(** C7, as stated, fails: after an ON without duration (instant 0) turned
    into a timed one (instant 5, 20 seconds), the output is in duration mode
    and an OFF at instant 10 records 10, not the 5 elapsed of the timed
    period. *)
Lemma off_in_both_modes_records_whole_run :
  let self :=
    run_calls Scenario.relay
      [Scenario.plain_on 0 (Some "sec") false false;
       Scenario.on_for 5 20 0 true] in
  let r := call (Scenario.off 10 true) self in
  output_on_duration self = true
  /\ sign_matched (output_last_duration self) (elapsed 10 self) = 5
  /\ map ds_value (samples_of (r_trace r)) = [Some 10].
Proof. vm_compute. repeat split. Qed.

Lemma off_records_the_run_witness :
  let self := r_self (call (Scenario.on_for 0 20 0 false) Scenario.relay) in
  let r := call (Scenario.off 5 true) self in
  map ds_value (samples_of (r_trace r)) = [Some 5]
  /\ output_on_duration (r_self r) = false
  /\ output_on_until (r_self r) = 5.
Proof.
  intros self r.
  destruct (@off_records_the_run (Scenario.env_at 5 true false false [])
              (PStr "off") None None 0 true self)
    as (H & _).
  - reflexivity.
  - reflexivity.
  - reflexivity.
  - destruct H as (H1 & H2 & H3); [reflexivity|reflexivity|].
    split; [exact (f_equal (map ds_value) H1)|].
    split; [exact H2|exact H3].
Defined.

(** ** The four ways through [output_on_off] *)

Lemma output_on_off_cases e state otype amount min_off tc self :
  let r := output_on_off e state otype amount min_off tc self in
  r = {| r_self := self; r_trace := []; r_val := inr (1, MsgBadState) |}
  \/ r = {| r_self := self; r_trace := []; r_val := inr (1, MsgNotSetup) |}
  \/ (is_on_request state = true /\ env_is_setup e = true
      /\ r = bind (on_branch e otype (amount_or_0 amount) min_off
                     (env_is_on e) (env_now e))
                  (finish e (amount_or_0 amount) tc) self)
  \/ (is_off_request state = true /\ env_is_setup e = true
      /\ r = bind (off_branch e otype (env_now e))
                  (finish e (amount_or_0 amount) tc) self).
Proof.
  intros r. subst r.
  destruct (is_on_request state) eqn:Hon.
  - destruct (env_is_setup e) eqn:Hs.
    + right. right. left. repeat split.
      now apply output_on_off_on_request.
    + right. left. unfold output_on_off, is_on_request, py_in in *.
      rewrite existsb_app, Hon, Hs. reflexivity.
  - destruct (is_off_request state) eqn:Hoff.
    + destruct (env_is_setup e) eqn:Hs.
      * right. right. right. repeat split.
        now apply output_on_off_off_request.
      * right. left. unfold output_on_off, is_off_request, py_in in *.
        rewrite existsb_app, Hoff, Hs, orb_true_r. reflexivity.
    + left. unfold output_on_off, is_on_request, is_off_request, py_in in *.
      rewrite existsb_app, Hon, Hoff. reflexivity.
Qed.

Lemma bind_finish_driver_error (m : M flow) e amount tc self :
  r_val (bind m (finish e amount tc) self) = inl DriverError ->
  r_self (bind m (finish e amount tc) self) = r_self (m self)
  /\ r_trace (bind m (finish e amount tc) self) = r_trace (m self)
  /\ r_val (m self) = inl DriverError.
Proof.
  destruct (m self) as [s1 t1 [x|fl]] eqn:E.
  - rewrite (bind_raised _ _ _ E). cbn. intros H. inversion H. now repeat split.
  - rewrite (bind_finish_returned _ _ _ _ _ E). cbn [r_val]. intros H.
    exfalso. exact (finish_not_driver_error _ _ _ _ _ H).
Qed.

(** ** When the driver raises *)

Lemma on_branch_driver_error e otype amount min_off is_on now self :
  let r := on_branch e otype amount min_off is_on now self in
  r_val r = inl DriverError ->
  (exists st ot am, r_trace r = [EvSwitch st ot am])
  /\ output_on_duration (r_self r) = output_on_duration self
  /\ output_on_until (r_self r) = output_on_until self
  /\ output_last_duration (r_self r) = output_last_duration self
  /\ output_off_triggered (r_self r) = output_off_triggered self
  /\ (output_off_until (r_self r) = output_off_until self
      \/ (min_off <> 0
          /\ output_off_until (r_self r) =
             OffAt (now + (Z.abs amount + min_off))))
  /\ (output_time_turned_on (r_self r) = output_time_turned_on self
      \/ (output_time_turned_on self = None
          /\ output_time_turned_on (r_self r) = Some now)).
Proof.
  unfold_py. destruct self. crunch.
  all: intros H; try discriminate H.
  all: split; [do 3 eexists; reflexivity|].
  all: repeat (split; [reflexivity|]).
  all: split;
    [ first [ left; reflexivity
            | right; split; [|reflexivity];
              match goal with
              | H : negb (_ =? _)%Z = true |- _ =>
                  apply negb_true_iff, Z.eqb_neq in H; exact H
              end ]
    | first [ left; reflexivity | right; split; reflexivity ] ].
Qed.

(** Whenever a call ends in the driver's exception, nothing but the driver
    call has happened (no sample, no trigger evaluation) and [on_duration],
    [on_until], [last_duration] and [off_triggered] are as before the call;
    [off_until] and [time_turned_on], which lines 254 and 350 assign before
    the driver call, are as before or hold that assignment.  An OFF request
    whose driver call raises changes nothing. *)
Lemma driver_failure_keeps_timed_window e state otype amount min_off tc self :
  let r := output_on_off e state otype amount min_off tc self in
  r_val r = inl DriverError ->
  (exists st ot am, r_trace r = [EvSwitch st ot am])
  /\ output_on_duration (r_self r) = output_on_duration self
  /\ output_on_until (r_self r) = output_on_until self
  /\ output_last_duration (r_self r) = output_last_duration self
  /\ output_off_triggered (r_self r) = output_off_triggered self
  /\ (output_off_until (r_self r) = output_off_until self
      \/ (min_off <> 0
          /\ output_off_until (r_self r) =
             OffAt (env_now e + (Z.abs (amount_or_0 amount) + min_off))))
  /\ (output_time_turned_on (r_self r) = output_time_turned_on self
      \/ (output_time_turned_on self = None
          /\ output_time_turned_on (r_self r) = Some (env_now e)))
  /\ (is_off_request state = true -> r_self r = self).
Proof.
  intros r.
  destruct (output_on_off_cases e state otype amount min_off tc self)
    as [H | [H | [(Hon & Hs & H) | (Hoff & Hs & H)]]];
    fold r in H; rewrite H.
  - discriminate.
  - discriminate.
  - intros Hv. apply bind_finish_driver_error in Hv.
    destruct Hv as (-> & -> & Hv).
    pose proof (on_branch_driver_error _ _ _ _ _ _ _ Hv)
      as (H1 & H2 & H3 & H4 & H5 & H6 & H7).
    repeat (split; [assumption|]).
    intros Hoff. apply off_request_not_on in Hoff. congruence.
  - intros Hv. apply bind_finish_driver_error in Hv.
    destruct Hv as (-> & -> & Hv).
    destruct (env_switch_raises e) eqn:Hr.
    + rewrite (off_branch_raises _ otype (env_now e) self Hr). cbn.
      split; [do 3 eexists; reflexivity|].
      repeat (split; [reflexivity|]).
      split; [now left|]. split; [now left|]. reflexivity.
    + rewrite (off_branch_run _ otype (env_now e) self Hr) in Hv.
      discriminate Hv.
Qed.

(** C5: an ON without duration whose driver call raises has recorded the
    run all the same: [time_turned_on] is assigned at line 350, before the
    driver is called at line 356.  On the fresh relay, with the driver
    raising at instant 3, the exception reaches the caller with
    [time_turned_on = 3], and the OFF that follows at instant 50 hands the
    recorder a run of 47 seconds that never took place.  The ON for an
    amount assigns its fields after the driver call (lines 327-330): with
    the same failure it leaves the relay as it was. *)
Theorem failed_plain_on_is_recorded_as_a_run :
  let r := call (Scenario.plain_on 3 (Some "sec") false true) Scenario.relay in
  let r' := call (Scenario.off 50 false) (r_self r) in
  let q :=
    output_on_off (Scenario.env_at 3 false false true []) (PStr "on")
      (Some "sec") (Some 20) 0 true Scenario.relay in
  r_val r = inl DriverError
  /\ r_trace r = [EvSwitch "on" (Some "sec") None]
  /\ output_time_turned_on Scenario.relay = None
  /\ output_time_turned_on (r_self r) = Some 3
  /\ map ds_value (samples_of (r_trace r')) = [Some 47]
  /\ r_val q = inl DriverError
  /\ r_trace q = [EvSwitch "on" (Some "sec") (Some 20)]
  /\ r_self q = Scenario.relay.
Proof. vm_compute. repeat split. Qed.

(** ** Which requests reach the trigger evaluator *)

Lemma on_branch_return_cases e otype amount min_off is_on now self c m :
  r_val (on_branch e otype amount min_off is_on now self)
  = inr (Return c m) ->
  c = 1
  \/ (c = 0 /\ in_sec_or_None otype = true /\ on_off_capable self = true
      /\ amount <> 0 /\ is_on = true).
Proof.
  unfold on_off_capable. unfold_py. destruct self. crunch.
  all: intros H; try discriminate H; inversion H; subst; auto.
  all: right.
  all: repeat match goal with
         | H : (_ && _) = true |- _ => apply andb_prop in H; destruct H
         | H : negb _ = true |- _ => apply negb_true_iff in H
         end; eqb_to_prop; auto.
Qed.

Lemma accepted_request_reaches_triggers
    e state otype amount min_off self msg :
  let r := output_on_off e state otype amount min_off true self in
  r_val r = inr (0, msg) ->
  ~ (is_on_request state = true /\ in_sec_or_None otype = true
     /\ on_off_capable self = true /\ amount_or_0 amount <> 0
     /\ env_is_on e = true) ->
  triggers_checked (amount_or_0 amount) (r_trace r).
Proof.
  intros r.
  destruct (output_on_off_cases e state otype amount min_off true self)
    as [H | [H | [(Hon & Hs & H) | (Hoff & Hs & H)]]];
    fold r in H; rewrite H.
  - discriminate.
  - discriminate.
  - destruct (on_branch e otype (amount_or_0 amount) min_off (env_is_on e)
                (env_now e) self) as [s1 t1 [x|fl]] eqn:E.
    + rewrite (bind_raised _ _ _ E). discriminate.
    + rewrite (bind_finish_returned _ _ _ _ _ E). cbn [r_val r_trace].
      destruct fl as [c m|m].
      * rewrite finish_return. cbn [r_val]. intros Hv Hnot.
        inversion Hv; subst c m. exfalso.
        pose proof (@on_branch_return_cases e otype (amount_or_0 amount)
                      min_off (env_is_on e) (env_now e) self 0 msg) as Hc.
        rewrite E in Hc. destruct (Hc eq_refl) as [Hc1 | Hc1];
          [discriminate|]. apply Hnot. tauto.
      * intros _ _. rewrite finish_continue_trace.
        apply in_or_app. right. apply trigger_trace_checked.
  - destruct (env_switch_raises e) eqn:Hr.
    + rewrite (bind_raised _ _ _
                 (off_branch_raises _ otype (env_now e) self Hr)).
      discriminate.
    + rewrite (bind_finish_returned _ _ _ _ _
                 (off_branch_run _ otype (env_now e) self Hr)).
      cbn [r_val r_trace]. intros _ _. rewrite finish_continue_trace.
      apply in_or_app. right. apply trigger_trace_checked.
Qed.

Lemma already_on_timed_request_returns_early
    e state otype amount min_off tc self :
  env_is_setup e = true ->
  is_on_request state = true ->
  in_sec_or_None otype = true ->
  on_off_capable self = true ->
  amount_or_0 amount <> 0 ->
  env_is_on e = true ->
  let r := output_on_off e state otype amount min_off tc self in
  (exists msg, r_val r = inr (0, msg))
  /\ forall a, ~ triggers_checked a (r_trace r).
Proof.
  intros Hs Hon Hsec Hcap Ha Hison r. subst r.
  rewrite (output_on_off_on_request _ _ _ _ _ _ _ Hon Hs), Hison.
  pose proof (@on_branch_timed e otype (amount_or_0 amount) min_off true
                (env_now e) self Hsec Hcap Ha) as Hb.
  destruct (output_on_duration self) eqn:Hd.
  - rewrite (on_for_amount_rearm e (amount_or_0 amount) min_off (env_now e)
               self Hd) in Hb.
    rewrite (bind_finish_returned _ _ _ _ _ Hb), finish_return.
    cbn [r_val r_trace]. split; [eexists; reflexivity|].
    intros a. unfold triggers_checked.
    destruct (elapsed (env_now e) self >? 0)%Z; cbn; intuition discriminate.
  - rewrite (on_for_amount_convert e (amount_or_0 amount) min_off (env_now e)
               self Hd) in Hb.
    rewrite (bind_finish_returned _ _ _ _ _ Hb), finish_return.
    cbn [r_val r_trace]. split; [eexists; reflexivity|].
    intros a. unfold triggers_checked. cbn. tauto.
Qed.

(** C4, as the code has it: a call with [trigger_conditionals] true that
    returns code 0 has entered the trigger evaluator with the request's
    amount, unless it is a timed ON (['sec'] or no [output_type], non-zero
    amount, on/off output) on an output that is already on: those two paths
    return code 0 after their bookkeeping, at lines 301 and 316, and the
    evaluator is not entered. *)
Theorem accepted_request_checks_triggers e state otype amount min_off self :
  let r := output_on_off e state otype amount min_off true self in
  let already_on_timed :=
    is_on_request state = true /\ in_sec_or_None otype = true
    /\ on_off_capable self = true /\ amount_or_0 amount <> 0
    /\ env_is_on e = true in
  (forall msg,
      r_val r = inr (0, msg) ->
      ~ already_on_timed ->
      triggers_checked (amount_or_0 amount) (r_trace r))
  /\ (env_is_setup e = true ->
      already_on_timed ->
      (exists msg, r_val r = inr (0, msg))
      /\ ~ triggers_checked (amount_or_0 amount) (r_trace r)).
Proof.
  intros r already_on_timed. split.
  - intros msg. apply accepted_request_reaches_triggers.
  - intros Hs (Hon & Hsec & Hcap & Ha & Hison).
    destruct (@already_on_timed_request_returns_early e state otype amount
                min_off true self Hs Hon Hsec Hcap Ha Hison) as [Hv Hno].
    split; [exact Hv|apply Hno].
Qed.

Lemma accepted_request_checks_triggers_witness :
  triggers_checked 20
    (r_trace (call (Scenario.on_for 0 20 0 false) Scenario.relay)).
Proof.
  apply (proj1 (@accepted_request_checks_triggers
                  (Scenario.env_at 0 false true false []) (PStr "on")
                  (Some "sec") (Some 20) 0 Scenario.relay)
           (MsgOnFor "0a1b2c3d-relay" "Pump relay" 20)).
  - reflexivity.
  - intros (_ & _ & _ & _ & H). discriminate H.
Defined.

(** C4, as stated, fails: re-arming a running timed output returns code 0
    and the trigger evaluator is not entered. *)
Lemma rearm_skips_triggers :
  let self := r_self (call (Scenario.on_for 0 20 0 false) Scenario.relay) in
  let r := call (Scenario.on_for 5 20 0 true) self in
  c_trigger_conditionals (Scenario.on_for 5 20 0 true) = true
  /\ r_val r =
     inr (0, MsgAlreadyOnAmount "0a1b2c3d-relay" "Pump relay" 20 15 5 20)
  /\ ~ triggers_checked 20 (r_trace r).
Proof.
  split; [reflexivity|]. split; [reflexivity|].
  vm_compute. intros [H|[]]. discriminate H.
Qed.

(** ** Duration mode and indefinite mode *)

Ltac close_bool :=
  rewrite ?andb_true_r, ?andb_false_r, ?orb_true_r, ?orb_false_r in *;
  cbn in *;
  repeat match goal with
         | H : ?x = _ |- context [?x] => rewrite H
         end;
  cbn; try discriminate; try reflexivity.

(** What the on branch does to the two mode fields. *)
Lemma on_branch_modes e otype amount min_off is_on now self :
  let s := r_self (on_branch e otype amount min_off is_on now self) in
  output_on_duration s =
    output_on_duration self
    || (in_sec_or_None otype && on_off_capable self
        && negb (amount =? 0)%Z && (is_on || negb (env_switch_raises e)))
  /\ is_set (output_time_turned_on s) =
       is_set (output_time_turned_on self)
       || (in_sec_or_None otype && on_off_in_information self
           && (amount =? 0)%Z
           && negb (is_on && negb (output_force_command self))).
Proof.
  unfold on_off_capable, on_off_in_information.
  destruct (in_sec_or_None otype) eqn:Hsec.
  - destruct (sec_or_None_is_not _ Hsec) as (Hoo & Hvol & Hpwm).
    unfold_py. rewrite Hoo, Hvol, Hpwm, Hsec. destruct self. cbn.
    destruct (str_in output_type0 (ot_on_off output_types0)),
      (amount =? 0)%Z, is_on, (env_switch_raises e), output_on_duration0,
      output_force_command0, output_time_turned_on0,
      (negb (min_off =? 0)%Z);
      cbn; crunch; cbn; split; close_bool.
  - unfold_py. rewrite Hsec. destruct self. cbn.
    crunch; cbn; split; close_bool.
Qed.

Lemma off_branch_modes e otype now self :
  let s := r_self (off_branch e otype now self) in
  output_on_duration s =
    (if env_switch_raises e then output_on_duration self else false)
  /\ is_set (output_time_turned_on s) =
       (if env_switch_raises e then is_set (output_time_turned_on self)
        else false).
Proof.
  destruct (env_switch_raises e) eqn:Hr.
  - rewrite (off_branch_raises _ otype now self Hr). now split.
  - rewrite (off_branch_run _ otype now self Hr).
    unfold switched_off. destruct self. cbn.
    destruct output_on_duration0, output_time_turned_on0; now split.
Qed.

Lemma on_request_not_off state :
  is_on_request state = true -> is_off_request state = false.
Proof.
  intros Hon. destruct (is_off_request state) eqn:Hoff; [|reflexivity].
  apply off_request_not_on in Hoff. congruence.
Qed.

(** What one request does to the two mode fields. *)
Lemma call_modes c self :
  let s := r_self (call c self) in
  output_on_duration s =
    (if completes_off c then false
     else output_on_duration self || starts_timed_run self c)
  /\ is_set (output_time_turned_on s) =
       (if completes_off c then false
        else is_set (output_time_turned_on self) || switches_on_plain self c).
Proof.
  unfold call, completes_off, starts_timed_run, switches_on_plain.
  destruct (env_is_setup (c_env c)) eqn:Hs.
  - destruct (is_on_request (c_state c)) eqn:Hon.
    + rewrite (on_request_not_off _ Hon).
      rewrite (output_on_off_on_request _ _ _ _ _ _ _ Hon Hs).
      rewrite bind_finish_self. cbn [andb].
      apply on_branch_modes.
    + destruct (is_off_request (c_state c)) eqn:Hoff.
      * rewrite (output_on_off_off_request _ _ _ _ _ _ _ Hoff Hs).
        rewrite bind_finish_self. cbn [andb].
        destruct (off_branch_modes (c_env c) (c_otype c) (env_now (c_env c))
                    self) as [H1 H2].
        rewrite H1, H2.
        destruct (env_switch_raises (c_env c)); cbn;
          now rewrite ?orb_false_r.
      * destruct (output_on_off_self (c_env c) (c_state c) (c_otype c)
                    (c_amount c) (c_min_off c) (c_trigger_conditionals c) self)
          as [-> | [(H & _) | (H & _)]]; try congruence.
        cbn. now rewrite !orb_false_r.
  - destruct (output_on_off_self (c_env c) (c_state c) (c_otype c)
                (c_amount c) (c_min_off c) (c_trigger_conditionals c) self)
      as [-> | [(_ & H & _) | (_ & H & _)]]; try congruence.
    rewrite !andb_false_r. cbn. now rewrite !orb_false_r.
Qed.

Lemma starts_same_config cfg self c :
  same_config cfg self ->
  starts_timed_run self c = starts_timed_run cfg c
  /\ switches_on_plain self c = switches_on_plain cfg c.
Proof.
  unfold same_config, starts_timed_run, switches_on_plain, on_off_capable,
    on_off_in_information.
  intros (_ & _ & -> & -> & -> & ->). now split.
Qed.

Lemma call_same_config cfg c self :
  same_config cfg self -> same_config cfg (r_self (call c self)).
Proof.
  intros Hcfg. pose proof (call_config c self) as Hstep.
  unfold same_config in *.
  destruct Hcfg as (A1 & A2 & A3 & A4 & A5 & A6).
  destruct Hstep as (B1 & B2 & B3 & B4 & B5 & B6).
  repeat split; congruence.
Qed.

(** [on_duration] after a sequence of requests, from any state. *)
Lemma run_calls_on_duration cfg cs : forall self,
  same_config cfg self ->
  output_on_duration (run_calls self cs) =
    since_off (starts_timed_run cfg) cs (output_on_duration self).
Proof.
  induction cs as [|c cs IH]; intros self Hcfg; [reflexivity|].
  cbn [run_calls since_off].
  rewrite (IH _ (call_same_config c Hcfg)).
  rewrite (proj1 (call_modes c self)).
  now rewrite (proj1 (starts_same_config c Hcfg)).
Qed.

(** [time_turned_on] after a sequence of requests, from any state. *)
Lemma run_calls_time_turned_on cfg cs : forall self,
  same_config cfg self ->
  plain_on_never_fails cfg cs = true ->
  is_set (output_time_turned_on (run_calls self cs)) =
    since_off (starts_indefinite_run cfg) cs
      (is_set (output_time_turned_on self)).
Proof.
  induction cs as [|c cs IH]; intros self Hcfg Hok; [reflexivity|].
  cbn [plain_on_never_fails forallb] in Hok.
  apply andb_prop in Hok. destruct Hok as [Hc Hcs].
  cbn [run_calls since_off].
  rewrite (IH _ (call_same_config c Hcfg) Hcs).
  rewrite (proj2 (call_modes c self)).
  rewrite (proj2 (starts_same_config c Hcfg)).
  unfold starts_indefinite_run.
  destruct (switches_on_plain cfg c); cbn in *; [|reflexivity].
  apply negb_true_iff in Hc. rewrite Hc. reflexivity.
Qed.

(** The windows a moderate request asks for are instants a [datetime]
    holds. *)
Lemma moderate_windows_in_range c :
  moderate c ->
  let now := env_now (c_env c) in
  let a := amount_or_0 (c_amount c) in
  in_datetime_range now
  /\ in_datetime_range (env_utcnow (c_env c))
  /\ in_datetime_range (now + Z.abs a)
  /\ in_datetime_range (now + (Z.abs a + c_min_off c)).
Proof.
  unfold moderate, in_datetime_range, moderate_span, datetime_min,
    datetime_end.
  intros (H1 & H2 & H3 & H4). cbn zeta.
  change (10 ^ 10) with 10000000000 in *.
  change (- (719162 * 86400)) with (-62135596800).
  change (2932897 * 86400) with 253402300800.
  lia.
Qed.

(** C3, as the code has it: after any sequence of moderate requests on a
    freshly set-up output, [on_duration] is true exactly when an ON for an
    amount was carried out since the last OFF the driver carried out (or
    since set-up); and, when no ON without duration of the sequence meets a
    driver that raises, [time_turned_on] is set exactly when an ON without
    duration was carried out since then.  So the two hold together exactly
    when both kinds of ON were carried out with no such OFF in between, as
    when a run without duration is turned into a timed one in place
    (lines 304-316), and never otherwise. *)
Theorem modes_follow_the_requests output types info t0 t1 cs :
  Forall moderate cs ->
  let self0 := fresh output types info t0 t1 in
  let self := run_calls self0 cs in
  let timed := since_off (starts_timed_run self0) cs false in
  let indefinite := since_off (starts_indefinite_run self0) cs false in
  (output_on_duration self = true <-> timed = true)
  /\ (plain_on_never_fails self0 cs = true ->
      (output_time_turned_on self <> None <-> indefinite = true)
      /\ (output_on_duration self = true
          /\ output_time_turned_on self <> None
          <-> timed = true /\ indefinite = true)).
Proof.
  intros _ self0 self timed indefinite.
  pose proof (@run_calls_on_duration self0 cs self0 (same_config_refl self0))
    as H1.
  change (output_on_duration self = timed) in H1.
  rewrite H1. split; [tauto|]. intros Hok.
  pose proof (@run_calls_time_turned_on self0 cs self0
                (same_config_refl self0) Hok) as H2.
  change (is_set (output_time_turned_on self) = indefinite) in H2.
  assert (Ht : output_time_turned_on self <> None <-> indefinite = true).
  { rewrite <- H2. destruct (output_time_turned_on self); cbn; split;
      congruence. }
  split; [exact Ht|]. tauto.
Qed.

Lemma modes_follow_the_requests_witness :
  let self :=
    run_calls Scenario.relay
      [Scenario.on_for 0 20 0 false;
       Scenario.plain_on 5 (Some "sec") true false;
       Scenario.off 9 true;
       Scenario.plain_on 12 (Some "sec") false false;
       {| c_env := Scenario.env_at 15 true true false [];
          c_state := PStr "on"; c_otype := Some "vol";
          c_amount := Some 4; c_min_off := 0;
          c_trigger_conditionals := true |}] in
  output_on_duration self = false
  /\ output_time_turned_on self <> None
  /\ ~ (output_on_duration self = true /\ output_time_turned_on self <> None).
Proof.
  intros self.
  destruct (@modes_follow_the_requests Scenario.relay_row Scenario.types
              Scenario.relay_info 0 0
              [Scenario.on_for 0 20 0 false;
               Scenario.plain_on 5 (Some "sec") true false;
               Scenario.off 9 true;
               Scenario.plain_on 12 (Some "sec") false false;
               {| c_env := Scenario.env_at 15 true true false [];
                  c_state := PStr "on"; c_otype := Some "vol";
                  c_amount := Some 4; c_min_off := 0;
                  c_trigger_conditionals := true |}])
    as (_ & H).
  - repeat constructor; vm_compute; discriminate.
  - destruct H as (H2 & H3); [reflexivity|].
    split; [reflexivity|]. split; [apply H2; reflexivity|].
    intros H. apply H3 in H. destruct H as [H _]. discriminate H.
Defined.

(** C3, as stated, fails: an ON without duration followed by an ON with an
    amount, the driver reporting the output on in between, converts the run
    in place (lines 304-316) and keeps [time_turned_on]. *)
Lemma converted_run_is_in_both_modes :
  let self :=
    run_calls Scenario.relay
      [Scenario.plain_on 0 (Some "sec") false false;
       Scenario.on_for 5 20 0 true] in
  reachable self
  /\ output_on_duration self = true
  /\ output_time_turned_on self = Some 0.
Proof.
  split; [|split; reflexivity].
  apply reachable_run_calls. apply reach_fresh.
Qed.

(** ** Requests that match no dispatch branch *)

Lemma interlock_skipped otype is_on now self :
  opt_is otype "on_off" = false ->
  interlock otype is_on now self =
  {| r_self := self; r_trace := []; r_val := inr None |}.
Proof. intros H. unfold interlock, bind, ret. now rewrite H. Qed.

Lemma interlock_elapsed otype is_on now self info :
  OUTPUT_INFORMATION self = Some info ->
  (forall t, output_off_until self = OffAt t -> t <= now) ->
  interlock otype is_on now self =
  {| r_self := self; r_trace := []; r_val := inr None |}.
Proof.
  intros Hinfo Hlock.
  unfold interlock, has_output_types_key, bind, get, ret.
  destruct (opt_is otype "on_off"); [|reflexivity].
  cbn. rewrite Hinfo. cbn.
  destruct (match oi_output_types info with
            | Some _ => true
            | None => false
            end && negb is_on); [|reflexivity].
  cbn. destruct (output_off_until self) as [| |t] eqn:Hu; try reflexivity.
  assert (Hle : (t >? now)%Z = false).
  { rewrite Z.gtb_ltb. apply Z.ltb_ge. now apply Hlock. }
  now rewrite Hle.
Qed.

Lemma on_branch_unmatched e otype amount min_off is_on now self info :
  OUTPUT_INFORMATION self = Some info ->
  (otype = Some "vol"
   /\ str_in (output_type self) (ot_volume (output_types self)) = false)
  \/ (otype = Some "on_off"
      /\ forall t, output_off_until self = OffAt t -> t <= now) ->
  on_branch e otype amount min_off is_on now self =
  {| r_self := self; r_trace := []; r_val := inr (Continue MsgEmpty) |}.
Proof.
  intros Hinfo [(-> & Hvol) | (-> & Hlock)]; unfold on_branch.
  - rewrite (bind_returned _ _ _
               (@interlock_skipped (Some "vol") is_on now self eq_refl)).
    unfold has_output_types_key, bind, get, ret.
    change (opt_is (Some "vol") "vol") with true.
    change (opt_is (Some "vol") "pwm") with false.
    change (in_sec_or_None (Some "vol")) with false.
    cbn. rewrite Hvol, Hinfo. cbn. rewrite !andb_false_r. reflexivity.
  - rewrite (bind_returned _ _ _
               (@interlock_elapsed (Some "on_off") is_on now self info Hinfo Hlock)).
    unfold has_output_types_key, bind, get, ret.
    change (opt_is (Some "on_off") "vol") with false.
    change (opt_is (Some "on_off") "pwm") with false.
    change (in_sec_or_None (Some "on_off")) with false.
    cbn. rewrite Hinfo. cbn. rewrite !andb_false_r. reflexivity.
Qed.

(** C10: an ON request on a set-up output with [output_type] ['vol'] on an
    output that is not of a volume type, or with [output_type] ['on_off']
    once the minimum off time has elapsed (or was never asked), matches no
    branch of lines 231-356: the driver is not called, no field changes,
    nothing is recorded, the trigger evaluator is entered when
    [trigger_conditionals] is true, and the call returns code 0 with the
    empty message. *)
Theorem unmatched_on_request_is_accepted
    e state otype amount min_off tc self info :
  is_on_request state = true ->
  env_is_setup e = true ->
  OUTPUT_INFORMATION self = Some info ->
  (otype = Some "vol"
   /\ str_in (output_type self) (ot_volume (output_types self)) = false)
  \/ (otype = Some "on_off"
      /\ forall t, output_off_until self = OffAt t -> t <= env_now e) ->
  let r := output_on_off e state otype amount min_off tc self in
  r_self r = self
  /\ switches_of (r_trace r) = []
  /\ samples_of (r_trace r) = []
  /\ (tc = true -> triggers_checked (amount_or_0 amount) (r_trace r))
  /\ (tc = false -> r_trace r = [])
  /\ (tc = false \/ triggers_ok self e -> r_val r = inr (0, MsgEmpty)).
Proof.
  intros Hon Hs Hinfo Hcase r. subst r.
  rewrite (output_on_off_on_request _ _ _ _ _ _ _ Hon Hs).
  rewrite (bind_finish_returned _ _ _ _ _
             (@on_branch_unmatched e otype (amount_or_0 amount) min_off
                (env_is_on e) (env_now e) self info Hinfo Hcase)).
  cbn [r_self r_trace r_val app]. rewrite finish_continue_trace.
  destruct (trigger_trace_no_samples e (amount_or_0 amount) tc self)
    as [Hsam Hsw].
  split; [reflexivity|]. split; [exact Hsw|]. split; [exact Hsam|].
  split; [|split].
  - intros ->. apply trigger_trace_checked.
  - intros ->. reflexivity.
  - apply finish_continue_returns.
Qed.

Lemma unmatched_on_request_is_accepted_witness :
  let self :=
    run_calls Scenario.relay
      [Scenario.on_for 0 20 60 false; Scenario.off 5 true] in
  let r := call (Scenario.plain_on 100 (Some "on_off") false false) self in
  r_self r = self
  /\ switches_of (r_trace r) = []
  /\ triggers_checked 0 (r_trace r)
  /\ r_val r = inr (0, MsgEmpty).
Proof.
  intros self r.
  destruct (@unmatched_on_request_is_accepted
              (Scenario.env_at 100 false true false []) (PStr "on")
              (Some "on_off") None 0 true self Scenario.relay_info)
    as (H1 & H2 & _ & H3 & _ & H4).
  - reflexivity.
  - reflexivity.
  - reflexivity.
  - right. split; [reflexivity|].
    intros t Ht. vm_compute in Ht. inversion Ht. subst t.
    vm_compute. discriminate.
  - split; [exact H1|]. split; [exact H2|].
    split; [exact (H3 eq_refl)|].
    apply H4. right. left. reflexivity.
Defined.

(** ** Dispatching an [on_duration_greater_than] rule *)

Lemma dispatches_of_app id tr1 tr2 :
  dispatches_of id (tr1 ++ tr2)
  = (dispatches_of id tr1 + dispatches_of id tr2)%nat.
Proof.
  induction tr1 as [|ev tr1 IH]; cbn; [reflexivity|].
  destruct ev; cbn; try exact IH.
  destruct (String.eqb trigger_id id); cbn; now rewrite IH.
Qed.

Lemma dispatches_of_actions self e id l :
  dispatches_of id (map (output_action self e) l)
  = List.length (filter (fun r => String.eqb (Trigger.unique_id r) id) l).
Proof.
  induction l as [|x l IH]; cbn; [reflexivity|].
  destruct (String.eqb (Trigger.unique_id x) id); cbn; now rewrite IH.
Qed.

Lemma dispatches_of_none id tr :
  Forall (fun ev => dispatches_of id [ev] = O) tr -> dispatches_of id tr = O.
Proof.
  induction 1 as [|ev tr Hev _ IH]; [reflexivity|].
  change (ev :: tr) with ([ev] ++ tr).
  now rewrite dispatches_of_app, Hev, IH.
Qed.

Lemma filter_swap A (p q : A -> bool) (l : list A) :
  filter p (filter q l) = filter q (filter p l).
Proof.
  induction l as [|x l IH]; cbn; [reflexivity|].
  destruct (p x) eqn:Hp, (q x) eqn:Hq; cbn; rewrite ?Hp, ?Hq, IH; reflexivity.
Qed.

Lemma pwm_loop_never_dispatches self e t :
  rows_of t e = [t] ->
  Trigger.trigger_type t = "trigger_output" ->
  dispatches_of (Trigger.unique_id t) (r_trace (pwm_loop self e)) = O.
Proof.
  intros Hrows Hty. apply dispatches_of_none. unfold pwm_loop.
  apply for_each_trace_Forall. intros x s Hx.
  assert (Hne : String.eqb (Trigger.unique_id x) (Trigger.unique_id t) = false).
  { destruct (String.eqb (Trigger.unique_id x) (Trigger.unique_id t)) eqn:E;
      [|reflexivity].
    exfalso. unfold select_trigger_output_pwm in Hx.
    apply filter_In in Hx. destruct Hx as [Hx _].
    apply filter_In in Hx. destruct Hx as [Hx _].
    apply filter_In in Hx. destruct Hx as [Hin Hpwm].
    assert (Hxt : In x (rows_of t e)).
    { unfold rows_of. apply filter_In. now split. }
    rewrite Hrows in Hxt. destruct Hxt as [<- | []].
    rewrite Hty in Hpwm. discriminate Hpwm. }
  unfold pwm_body, bind, output_state_call.
  destruct (env_output_state e) as [d|]; cbn; [|constructor].
  destruct (negb (pwm_trigger_trigger d x)); cbn; [constructor|].
  constructor; [|constructor]. cbn. now rewrite Hne.
Qed.

(** Evaluate the comparisons of string literals. *)
Ltac eval_string_eqb :=
  repeat match goal with
         | |- context [String.eqb ?a ?b] =>
             let v := eval vm_compute in (String.eqb a b) in
             change (String.eqb a b) with v
         end.

Lemma on_duration_clause_greater_than amount t :
  Trigger.output_state t = "on_duration_greater_than" ->
  on_duration_clause amount t = (amount >? Trigger.output_duration t)%Z.
Proof.
  intros H. unfold on_duration_clause. rewrite H. eval_string_eqb. cbn.
  now rewrite !orb_false_r.
Qed.

Lemma select_trigger_output_rows self e amount t :
  env_is_on_after e = true ->
  rows_of t e = [t] ->
  Trigger.trigger_type t = "trigger_output" ->
  Trigger.unique_id_1 t = unique_id self ->
  Trigger.is_activated t = true ->
  Trigger.output_state t = "on_duration_greater_than" ->
  filter (fun r => String.eqb (Trigger.unique_id r) (Trigger.unique_id t))
         (select_trigger_output self e amount)
  = if (amount >? Trigger.output_duration t)%Z then [t] else [].
Proof.
  intros Hon Hrows Hty Hid Hact Hkind.
  unfold select_trigger_output. rewrite Hon.
  set (p := fun r => String.eqb (Trigger.unique_id r) (Trigger.unique_id t)).
  rewrite !(filter_swap p).
  change (filter p (env_triggers e)) with (rows_of t e). rewrite Hrows.
  cbn [filter]. rewrite Hty, String.eqb_refl.
  cbn [filter]. rewrite Hid, String.eqb_refl.
  cbn [filter]. rewrite Hact.
  cbn [filter Bool.eqb]. rewrite Hkind.
  change (str_in "on_duration_greater_than" on_duration_kinds) with true.
  cbn [filter]. rewrite (@on_duration_clause_greater_than amount t Hkind).
  reflexivity.
Qed.

(** C9: with the output reported on, an active [trigger_output] rule of
    kind [on_duration_greater_than] bound to this output (one row of the
    table) is dispatched once when the amount handed to the evaluator is
    greater than its threshold and not at all otherwise; the fields of the
    object other than its identifier, [last_duration] among them, play no
    part. *)
Theorem greater_than_rule_dispatched_iff_amount_exceeds e amount self t :
  env_is_on_after e = true ->
  rows_of t e = [t] ->
  Trigger.trigger_type t = "trigger_output" ->
  Trigger.unique_id_1 t = unique_id self ->
  Trigger.is_activated t = true ->
  Trigger.output_state t = "on_duration_greater_than" ->
  let fired s :=
    dispatches_of (Trigger.unique_id t)
      (r_trace (check_triggers e amount s)) in
  fired self
  = (if (amount >? Trigger.output_duration t)%Z then 1%nat else 0%nat)
  /\ (fired self = 1%nat <-> amount > Trigger.output_duration t)
  /\ (forall d, fired (set_last_duration d self) = fired self).
Proof.
  intros Hon Hrows Hty Hid Hact Hkind fired.
  assert (Hfired : forall s,
             unique_id s = unique_id self ->
             fired s
             = if (amount >? Trigger.output_duration t)%Z
               then 1%nat else 0%nat).
  { intros s Hs. unfold fired. rewrite check_triggers_run.
    cbn [r_trace dispatches_of]. rewrite dispatches_of_app.
    rewrite (@pwm_loop_never_dispatches s e t Hrows Hty), Nat.add_0_r.
    rewrite dispatches_of_actions.
    rewrite (@select_trigger_output_rows s e amount t Hon Hrows Hty
               (eq_trans Hid (eq_sym Hs)) Hact Hkind).
    destruct (amount >? Trigger.output_duration t)%Z; reflexivity. }
  split; [now apply Hfired|]. split.
  - rewrite (Hfired self eq_refl).
    destruct (amount >? Trigger.output_duration t)%Z eqn:E.
    + apply Z.gtb_gt in E. tauto.
    + rewrite Z.gtb_ltb in E. apply Z.ltb_ge in E.
      split; [discriminate|lia].
  - intros d. rewrite (Hfired self eq_refl). now apply Hfired.
Qed.

Lemma greater_than_rule_dispatched_iff_amount_exceeds_witness :
  let e20 := Scenario.env_at 0 false true false [Scenario.rule_gt_15] in
  dispatches_of "7e57ab1e-rule"
    (r_trace (check_triggers e20 20 Scenario.relay)) = 1%nat
  /\ dispatches_of "7e57ab1e-rule"
       (r_trace (check_triggers e20 10 Scenario.relay)) = 0%nat.
Proof.
  intros e20. split.
  - exact (proj1 (@greater_than_rule_dispatched_iff_amount_exceeds
                    e20 20 Scenario.relay Scenario.rule_gt_15
                    eq_refl eq_refl eq_refl eq_refl eq_refl eq_refl)).
  - exact (proj1 (@greater_than_rule_dispatched_iff_amount_exceeds
                    e20 10 Scenario.relay Scenario.rule_gt_15
                    eq_refl eq_refl eq_refl eq_refl eq_refl eq_refl)).
Defined.

(** The same through [output_on_off]: the amount of the request is what the
    rule is matched against.  Twenty seconds fire the rule once, ten do
    not; an ON without duration (amount 0) on an output whose
    [last_duration] is still 20 does not fire it either. *)
Example long_run_rule_through_output_on_off :
  let e := Scenario.env_at 0 false true false [Scenario.rule_gt_15] in
  let e9 := Scenario.env_at 9 false true false [Scenario.rule_gt_15] in
  let fired r := dispatches_of "7e57ab1e-rule" (r_trace r) in
  let stopped :=
    run_calls Scenario.relay
      [Scenario.on_for 0 20 0 false; Scenario.off 5 true] in
  fired (output_on_off e (PStr "on") (Some "sec") (Some 20) 0 true
           Scenario.relay) = 1%nat
  /\ fired (output_on_off e (PStr "on") (Some "sec") (Some 10) 0 true
              Scenario.relay) = 0%nat
  /\ output_last_duration stopped = 20
  /\ fired (output_on_off e9 (PStr "on") (Some "sec") None 0 true stopped)
     = 0%nat.
Proof. vm_compute. repeat split. Qed.

(** * Further properties of the module *)

(** ** The [state] argument *)

Lemma py_eq_refl v : py_eq v v = true.
Proof.
  destruct v as [s|z|b|]; cbn.
  - apply String.eqb_refl.
  - apply Z.eqb_refl.
  - destruct b; reflexivity.
  - reflexivity.
Qed.

Lemma py_in_of_In v l : In v l -> py_in v l = true.
Proof.
  unfold py_in. intros H. apply existsb_exists. exists v.
  split; [exact H|apply py_eq_refl].
Qed.

Lemma on_request_In state :
  is_on_request state = true ->
  state = PStr "on" \/ state = PInt 1 \/ state = PBool true.
Proof.
  unfold is_on_request, py_in, on_states.
  destruct state as [s|z|b|]; cbn.
  - destruct (String.eqb_spec s "on") as [->|]; [auto|discriminate].
  - destruct (Z.eqb_spec z 1) as [->|]; [auto|discriminate].
  - destruct b; [auto|discriminate].
  - discriminate.
Qed.

Lemma off_request_In state :
  is_off_request state = true ->
  state = PStr "off" \/ state = PInt 0 \/ state = PBool false.
Proof.
  unfold is_off_request, py_in, off_states.
  destruct state as [s|z|b|]; cbn.
  - destruct (String.eqb_spec s "off") as [->|]; [auto|discriminate].
  - destruct (Z.eqb_spec z 0) as [->|]; [auto|discriminate].
  - destruct b; [discriminate|auto].
  - discriminate.
Qed.

(** X1: a [state] that is none of ['on'], [1], [True], ['off'], [0],
    [False] is refused with code 1 and the message of line 187; nothing is
    read from the driver's answers, nothing is called and no field
    changes. *)
Theorem unknown_state_is_rejected e state otype amount min_off tc self :
  ~ In state [PStr "on"; PInt 1; PBool true; PStr "off"; PInt 0; PBool false] ->
  output_on_off e state otype amount min_off tc self =
  {| r_self := self; r_trace := []; r_val := inr (1, MsgBadState) |}.
Proof.
  intros Hnot.
  destruct (output_on_off_cases e state otype amount min_off tc self)
    as [H | [H | [(Hon & _ & _) | (Hoff & _ & _)]]].
  - exact H.
  - exfalso.
    unfold output_on_off in H.
    destruct (negb (py_in state (on_states ++ off_states))) eqn:Hin.
    + discriminate H.
    + apply negb_false_iff in Hin. unfold py_in in Hin.
      rewrite existsb_app in Hin. apply orb_prop in Hin.
      apply Hnot. destruct Hin as [Hin | Hin].
      * apply on_request_In in Hin.
        destruct Hin as [-> | [-> | ->]]; cbn; tauto.
      * apply off_request_In in Hin.
        destruct Hin as [-> | [-> | ->]]; cbn; tauto.
  - exfalso. apply Hnot. apply on_request_In in Hon.
    destruct Hon as [-> | [-> | ->]]; cbn; tauto.
  - exfalso. apply Hnot. apply off_request_In in Hoff.
    destruct Hoff as [-> | [-> | ->]]; cbn; tauto.
Qed.

Lemma unknown_state_is_rejected_witness :
  output_on_off (Scenario.env_at 0 false true false []) (PStr "ON")
    (Some "sec") (Some 5) 0 true Scenario.relay =
  {| r_self := Scenario.relay; r_trace := [];
     r_val := inr (1, MsgBadState) |}.
Proof.
  apply unknown_state_is_rejected.
  cbn. intros [H|[H|[H|[H|[H|[H|[]]]]]]]; discriminate H.
Defined.

(** X2: with a [state] that is accepted, a request made while [is_setup()]
    is false is refused with code 1 and the message of line 202:
    [output_switch] is not called, OFF requests included, and no field
    changes. *)
Theorem request_before_setup_is_rejected
    e state otype amount min_off tc self :
  In state [PStr "on"; PInt 1; PBool true; PStr "off"; PInt 0; PBool false] ->
  env_is_setup e = false ->
  output_on_off e state otype amount min_off tc self =
  {| r_self := self; r_trace := []; r_val := inr (1, MsgNotSetup) |}.
Proof.
  intros Hin Hs. unfold output_on_off.
  change [PStr "on"; PInt 1; PBool true; PStr "off"; PInt 0; PBool false]
    with (on_states ++ off_states) in Hin.
  rewrite (py_in_of_In _ _ Hin), Hs. reflexivity.
Qed.

Lemma request_before_setup_is_rejected_witness :
  let e :=
    {| env_now := 7; env_utcnow := 7; env_time := 7; env_is_on := true;
       env_is_setup := false; env_switch_raises := false;
       env_is_on_after := true; env_triggers := [];
       env_output_state := None |} in
  output_on_off e (PBool false) None None 0 true Scenario.relay =
  {| r_self := Scenario.relay; r_trace := [];
     r_val := inr (1, MsgNotSetup) |}.
Proof.
  intros e. apply request_before_setup_is_rejected.
  - cbn. tauto.
  - reflexivity.
Defined.

(** ** Return codes and what a refusal leaves behind *)

Lemma on_branch_refusal e otype amount min_off is_on now self m :
  r_val (on_branch e otype amount min_off is_on now self)
  = inr (Return 1 m) ->
  r_self (on_branch e otype amount min_off is_on now self) = self
  /\ r_trace (on_branch e otype amount min_off is_on now self) = [].
Proof.
  unfold_py. destruct self. crunch.
  all: intros H; try discriminate H; split; reflexivity.
Qed.

(** X3: a call that returns code 1 has changed no field and has called
    nothing: no driver call, no sample, no trigger evaluation. *)
Theorem refusal_has_no_effect e state otype amount min_off tc self msg :
  let r := output_on_off e state otype amount min_off tc self in
  r_val r = inr (1, msg) ->
  r_self r = self /\ r_trace r = [].
Proof.
  intros r.
  destruct (output_on_off_cases e state otype amount min_off tc self)
    as [H | [H | [(Hon & Hs & H) | (Hoff & Hs & H)]]];
    fold r in H; rewrite H.
  - intros _. split; reflexivity.
  - intros _. split; reflexivity.
  - destruct (on_branch e otype (amount_or_0 amount) min_off (env_is_on e)
                (env_now e) self) as [s1 t1 [x|fl]] eqn:E.
    + rewrite (bind_raised _ _ _ E). discriminate.
    + rewrite (bind_finish_returned _ _ _ _ _ E). cbn [r_val r_trace r_self].
      intros Hv. pose proof (finish_val_code _ _ _ _ _ Hv) as Hc.
      destruct fl as [c m|m].
      * destruct Hc as [-> ->]. rewrite finish_return. cbn [r_trace].
        pose proof (@on_branch_refusal e otype (amount_or_0 amount) min_off
                      (env_is_on e) (env_now e) self msg) as Hr.
        rewrite E in Hr. destruct (Hr eq_refl) as [Hself Htr].
        cbn in Hself, Htr. subst. split; reflexivity.
      * destruct Hc as [Hc _]. discriminate Hc.
  - destruct (env_switch_raises e) eqn:Hr.
    + rewrite (bind_raised _ _ _
                 (off_branch_raises _ otype (env_now e) self Hr)).
      discriminate.
    + rewrite (bind_finish_returned _ _ _ _ _
                 (off_branch_run _ otype (env_now e) self Hr)).
      cbn [r_val]. intros Hv.
      pose proof (finish_val_code _ _ _ _ _ Hv) as [Hc _]. discriminate Hc.
Qed.

Lemma refusal_has_no_effect_witness :
  let self := r_self (call (Scenario.plain_on 0 None false false)
                        Scenario.relay) in
  let r := call (Scenario.plain_on 4 None true false) self in
  r_self r = self /\ r_trace r = [].
Proof.
  intros self r.
  apply (@refusal_has_no_effect
           (Scenario.env_at 4 true true false []) (PStr "on") None None 0
           true self (MsgAlreadyOn "0a1b2c3d-relay" "Pump relay")).
  reflexivity.
Defined.

(** X4: whenever [output_on_off] returns, the code is 0 or 1. *)
Theorem return_code_is_0_or_1 e state otype amount min_off tc self code msg :
  r_val (output_on_off e state otype amount min_off tc self)
  = inr (code, msg) ->
  code = 0 \/ code = 1.
Proof.
  destruct (output_on_off_cases e state otype amount min_off tc self)
    as [H | [H | [(Hon & Hs & H) | (Hoff & Hs & H)]]];
    rewrite H.
  - intros Hv. inversion Hv. now right.
  - intros Hv. inversion Hv. now right.
  - destruct (on_branch e otype (amount_or_0 amount) min_off (env_is_on e)
                (env_now e) self) as [s1 t1 [x|fl]] eqn:E.
    + rewrite (bind_raised _ _ _ E). discriminate.
    + rewrite (bind_finish_returned _ _ _ _ _ E). cbn [r_val].
      intros Hv. pose proof (finish_val_code _ _ _ _ _ Hv) as Hc.
      destruct fl as [c m|m].
      * destruct Hc as [-> ->].
        pose proof (@on_branch_return_cases e otype (amount_or_0 amount)
                      min_off (env_is_on e) (env_now e) self code msg) as Hr.
        rewrite E in Hr. destruct (Hr eq_refl) as [Hr1 | (Hr1 & _)]; auto.
      * destruct Hc as [Hc _]. now left.
  - destruct (env_switch_raises e) eqn:Hr.
    + rewrite (bind_raised _ _ _
                 (off_branch_raises _ otype (env_now e) self Hr)).
      discriminate.
    + rewrite (bind_finish_returned _ _ _ _ _
                 (off_branch_run _ otype (env_now e) self Hr)).
      cbn [r_val]. intros Hv.
      pose proof (finish_val_code _ _ _ _ _ Hv) as [Hc _]. now left.
Qed.

Lemma return_code_is_0_or_1_witness :
  0 = 0 \/ 0 = 1.
Proof.
  apply (@return_code_is_0_or_1
           (Scenario.env_at 0 false true false []) (PStr "on") (Some "sec")
           (Some 20) 0 true Scenario.relay 0
           (MsgOnFor "0a1b2c3d-relay" "Pump relay" 20)).
  reflexivity.
Defined.

(** ** How much one call does *)

Lemma on_branch_one_effect e otype amount min_off is_on now self :
  (List.length
     (switches_of (r_trace (on_branch e otype amount min_off is_on now self)))
   + List.length
       (samples_of (r_trace (on_branch e otype amount min_off is_on now self)))
   <= 1)%nat.
Proof.
  unfold_py. destruct self. crunch. all: cbn; lia.
Qed.

Lemma off_branch_effects e otype now self :
  (List.length (switches_of (r_trace (off_branch e otype now self))) = 1
   /\ List.length (samples_of (r_trace (off_branch e otype now self))) <= 1)%nat.
Proof.
  destruct (env_switch_raises e) eqn:Hr.
  - rewrite (off_branch_raises _ otype now self Hr). cbn. lia.
  - rewrite (off_branch_run _ otype now self Hr). cbn.
    destruct (output_time_turned_on self), (output_on_duration self);
      cbn; lia.
Qed.

Lemma bind_finish_effects (m : M flow) e amount tc self :
  switches_of (r_trace (bind m (finish e amount tc) self))
  = switches_of (r_trace (m self))
  /\ samples_of (r_trace (bind m (finish e amount tc) self))
     = samples_of (r_trace (m self)).
Proof.
  destruct (m self) as [s1 t1 [x|fl]] eqn:E.
  - rewrite (bind_raised _ _ _ E). now split.
  - rewrite (bind_finish_returned _ _ _ _ _ E). cbn [r_trace].
    rewrite switches_of_app, samples_of_app.
    destruct fl as [c msg|msg].
    + rewrite finish_return. cbn. now rewrite !app_nil_r.
    + rewrite finish_continue_trace.
      destruct (trigger_trace_no_samples e amount tc s1) as [-> ->].
      now rewrite !app_nil_r.
Qed.

(** X5: one call makes at most one driver call and hands over at most one
    sample; an ON request never does both, and an OFF request on a set-up
    output makes exactly one driver call. *)
Theorem one_call_one_driver_call e state otype amount min_off tc self :
  let tr := r_trace (output_on_off e state otype amount min_off tc self) in
  (List.length (switches_of tr) <= 1)%nat
  /\ (List.length (samples_of tr) <= 1)%nat
  /\ (is_on_request state = true ->
      (List.length (switches_of tr) + List.length (samples_of tr) <= 1)%nat)
  /\ (is_off_request state = true -> env_is_setup e = true ->
      List.length (switches_of tr) = 1%nat).
Proof.
  intros tr. subst tr.
  destruct (output_on_off_cases e state otype amount min_off tc self)
    as [H | [H | [(Hon & Hs & H) | (Hoff & Hs & H)]]];
    rewrite H.
  - cbn. repeat split; try lia.
    intros Hoff Hs. exfalso.
    rewrite (output_on_off_off_request e _ otype amount min_off tc self
               Hoff Hs) in H.
    destruct (env_switch_raises e) eqn:Hr.
    + rewrite (bind_raised _ _ _
                 (off_branch_raises _ otype (env_now e) self Hr)) in H.
      discriminate H.
    + rewrite (bind_finish_returned _ _ _ _ _
                 (off_branch_run _ otype (env_now e) self Hr)) in H.
      discriminate H.
  - cbn. repeat split; try lia.
    intros Hoff Hs. exfalso.
    rewrite (output_on_off_off_request e _ otype amount min_off tc self
               Hoff Hs) in H.
    destruct (env_switch_raises e) eqn:Hr.
    + rewrite (bind_raised _ _ _
                 (off_branch_raises _ otype (env_now e) self Hr)) in H.
      discriminate H.
    + rewrite (bind_finish_returned _ _ _ _ _
                 (off_branch_run _ otype (env_now e) self Hr)) in H.
      discriminate H.
  - destruct (bind_finish_effects
                (on_branch e otype (amount_or_0 amount) min_off (env_is_on e)
                   (env_now e)) e (amount_or_0 amount) tc self) as [-> ->].
    pose proof (on_branch_one_effect e otype (amount_or_0 amount) min_off
                  (env_is_on e) (env_now e) self) as Hone.
    repeat split; try lia.
    intros Hoff. apply off_request_not_on in Hoff. congruence.
  - destruct (bind_finish_effects (off_branch e otype (env_now e)) e
                (amount_or_0 amount) tc self) as [-> ->].
    destruct (off_branch_effects e otype (env_now e) self) as [H1 H2].
    repeat split; try lia.
    intros Hon. apply off_request_not_on in Hoff. congruence.
Qed.

Lemma one_call_one_driver_call_witness :
  List.length
    (switches_of (r_trace (call (Scenario.off 5 true) Scenario.relay)))
  = 1%nat.
Proof.
  apply (proj2 (proj2 (proj2
           (@one_call_one_driver_call
              (Scenario.env_at 5 true false false []) (PStr "off") None None
              0 true Scenario.relay)))).
  - reflexivity.
  - reflexivity.
Defined.

(** ** Volume and duty cycle *)

(** X6: an ON request with [output_type] ['vol'] on an output of a volume
    type calls the driver with ['on'], ['vol'] and the amount (0 when none
    was given) whatever the output's state, [off_until] and [is_on()] are;
    no field of the object changes; unless the driver or the trigger
    evaluation raises, the call returns code 0 with the volume message. *)
Theorem volume_request_goes_to_driver e state amount min_off tc self :
  is_on_request state = true ->
  env_is_setup e = true ->
  str_in (output_type self) (ot_volume (output_types self)) = true ->
  let r := output_on_off e state (Some "vol") amount min_off tc self in
  let a := amount_or_0 amount in
  r_self r = self
  /\ switches_of (r_trace r) = [EvSwitch "on" (Some "vol") (Some a)]
  /\ samples_of (r_trace r) = []
  /\ (env_switch_raises e = true -> r_val r = inl DriverError)
  /\ (env_switch_raises e = false ->
      tc = false \/ triggers_ok self e ->
      r_val r = inr (0, MsgVolume (unique_id self) (output_name self) a)).
Proof.
  intros Hon Hs Hcap r a. subst r a.
  rewrite (output_on_off_on_request _ _ _ _ _ _ _ Hon Hs).
  assert (Hb : on_branch e (Some "vol") (amount_or_0 amount) min_off
                 (env_is_on e) (env_now e) self =
               if env_switch_raises e then
                 {| r_self := self;
                    r_trace := [EvSwitch "on" (Some "vol")
                                  (Some (amount_or_0 amount))];
                    r_val := inl DriverError |}
               else
                 {| r_self := self;
                    r_trace := [EvSwitch "on" (Some "vol")
                                  (Some (amount_or_0 amount))];
                    r_val :=
                      inr (Continue (MsgVolume (unique_id self)
                                       (output_name self)
                                       (amount_or_0 amount))) |}).
  { unfold on_branch.
    rewrite (bind_returned _ _ _
               (@interlock_skipped (Some "vol") (env_is_on e) (env_now e)
                  self eq_refl)).
    unfold output_switch, bind, get, ret, emit, raise.
    change (opt_is (Some "vol") "vol") with true.
    cbn. rewrite Hcap. cbn.
    destruct (env_switch_raises e); reflexivity. }
  destruct (env_switch_raises e) eqn:Hr.
  - rewrite (bind_raised _ _ _ Hb). cbn.
    repeat split; try reflexivity; intros; discriminate.
  - rewrite (bind_finish_returned _ _ _ _ _ Hb). cbn [r_self r_trace r_val].
    rewrite finish_continue_trace.
    change ([?x] ++ ?t) with (x :: t).
    destruct (trigger_trace_no_samples e (amount_or_0 amount) tc self)
      as [Hsam Hsw].
    split; [reflexivity|]. split; [cbn; now rewrite Hsw|].
    split; [cbn; exact Hsam|]. split; [discriminate|].
    intros _ Hok. now apply finish_continue_returns.
Qed.

Lemma volume_request_goes_to_driver_witness :
  let pump :=
    fresh {| row_unique_id := "5ca1ab1e-pump"; row_name := "Dosing pump";
             row_output_type := "atlas_ezo_pmp";
             row_force_command := false |}
      Scenario.types {| oi_output_types := Some ["volume"] |} 0 0 in
  let r :=
    output_on_off (Scenario.env_at 3 false true false []) (PInt 1)
      (Some "vol") (Some 25) 0 true pump in
  r_self r = pump
  /\ switches_of (r_trace r) = [EvSwitch "on" (Some "vol") (Some 25)]
  /\ r_val r = inr (0, MsgVolume "5ca1ab1e-pump" "Dosing pump" 25).
Proof.
  intros pump r.
  destruct (@volume_request_goes_to_driver
              (Scenario.env_at 3 false true false []) (PInt 1) (Some 25) 0
              true pump)
    as (H1 & H2 & _ & _ & H3).
  - reflexivity.
  - reflexivity.
  - reflexivity.
  - split; [exact H1|]. split; [exact H2|].
    apply H3; [reflexivity|]. right. left. reflexivity.
Defined.

(** X7: an ON request with [output_type] ['pwm'] on an output of a pwm type
    calls the driver with ['on'], ['pwm'] and the duty cycle (0 when none
    was given); no field of the object changes; unless the driver or the
    trigger evaluation raises, the call returns code 0 with the duty-cycle
    message. *)
Theorem pwm_request_goes_to_driver e state amount min_off tc self :
  is_on_request state = true ->
  env_is_setup e = true ->
  str_in (output_type self) (ot_pwm (output_types self)) = true ->
  let r := output_on_off e state (Some "pwm") amount min_off tc self in
  let a := amount_or_0 amount in
  r_self r = self
  /\ switches_of (r_trace r) = [EvSwitch "on" (Some "pwm") (Some a)]
  /\ samples_of (r_trace r) = []
  /\ (env_switch_raises e = true -> r_val r = inl DriverError)
  /\ (env_switch_raises e = false ->
      tc = false \/ triggers_ok self e ->
      r_val r = inr (0, MsgDutyCycle (unique_id self) (output_name self) a)).
Proof.
  intros Hon Hs Hcap r a. subst r a.
  rewrite (output_on_off_on_request _ _ _ _ _ _ _ Hon Hs).
  assert (Hb : on_branch e (Some "pwm") (amount_or_0 amount) min_off
                 (env_is_on e) (env_now e) self =
               if env_switch_raises e then
                 {| r_self := self;
                    r_trace := [EvSwitch "on" (Some "pwm")
                                  (Some (amount_or_0 amount))];
                    r_val := inl DriverError |}
               else
                 {| r_self := self;
                    r_trace := [EvSwitch "on" (Some "pwm")
                                  (Some (amount_or_0 amount))];
                    r_val :=
                      inr (Continue (MsgDutyCycle (unique_id self)
                                       (output_name self)
                                       (amount_or_0 amount))) |}).
  { unfold on_branch.
    rewrite (bind_returned _ _ _
               (@interlock_skipped (Some "pwm") (env_is_on e) (env_now e)
                  self eq_refl)).
    unfold output_switch, bind, get, ret, emit, raise.
    change (opt_is (Some "pwm") "vol") with false.
    change (opt_is (Some "pwm") "pwm") with true.
    cbn. rewrite Hcap. cbn.
    destruct (env_switch_raises e); reflexivity. }
  destruct (env_switch_raises e) eqn:Hr.
  - rewrite (bind_raised _ _ _ Hb). cbn.
    repeat split; try reflexivity; intros; discriminate.
  - rewrite (bind_finish_returned _ _ _ _ _ Hb). cbn [r_self r_trace r_val].
    rewrite finish_continue_trace.
    change ([?x] ++ ?t) with (x :: t).
    destruct (trigger_trace_no_samples e (amount_or_0 amount) tc self)
      as [Hsam Hsw].
    split; [reflexivity|]. split; [cbn; now rewrite Hsw|].
    split; [cbn; exact Hsam|]. split; [discriminate|].
    intros _ Hok. now apply finish_continue_returns.
Qed.

Lemma pwm_request_goes_to_driver_witness :
  let fan :=
    fresh {| row_unique_id := "fa11-fan"; row_name := "Fan";
             row_output_type := "pwm"; row_force_command := false |}
      Scenario.types {| oi_output_types := Some ["pwm"] |} 0 0 in
  let r :=
    output_on_off (Scenario.env_at 3 false true false []) (PStr "on")
      (Some "pwm") (Some 60) 0 false fan in
  r_self r = fan
  /\ r_trace r = [EvSwitch "on" (Some "pwm") (Some 60)]
  /\ r_val r = inr (0, MsgDutyCycle "fa11-fan" "Fan" 60).
Proof.
  intros fan r.
  destruct (@pwm_request_goes_to_driver
              (Scenario.env_at 3 false true false []) (PStr "on") (Some 60) 0
              false fan)
    as (H1 & _ & _ & _ & H3).
  - reflexivity.
  - reflexivity.
  - reflexivity.
  - split; [exact H1|]. split; [reflexivity|].
    apply H3; [reflexivity|]. left. reflexivity.
Defined.

(** ** Timed requests *)

(** X8: an ON request with ['sec'] or no [output_type] and a non-zero
    amount, on an output of an on/off type that the driver reports off, made
    at an instant from which the window asked for ([now + |amount|], and
    [now + |amount| + min_off] when a minimum off time is given) stays
    within what a [datetime] can hold, calls the driver once with ['on'],
    ['sec'] and the signed amount and records nothing; unless the driver
    raises, the output is then in duration mode with
    [on_until = now + |amount|] and [last_duration = amount],
    [time_turned_on] is untouched, and the call returns code 0 unless the
    trigger evaluation raises. *)
Theorem timed_on_from_off e state otype amount min_off tc self :
  is_on_request state = true ->
  env_is_setup e = true ->
  in_sec_or_None otype = true ->
  on_off_capable self = true ->
  amount_or_0 amount <> 0 ->
  env_is_on e = false ->
  in_datetime_range (env_now e) ->
  in_datetime_range (env_now e + Z.abs (amount_or_0 amount)) ->
  (min_off <> 0 ->
   in_datetime_range (env_now e + (Z.abs (amount_or_0 amount) + min_off))) ->
  let r := output_on_off e state otype amount min_off tc self in
  let a := amount_or_0 amount in
  switches_of (r_trace r) = [EvSwitch "on" (Some "sec") (Some a)]
  /\ samples_of (r_trace r) = []
  /\ (env_switch_raises e = false ->
      output_on_duration (r_self r) = true
      /\ output_on_until (r_self r) = env_now e + Z.abs a
      /\ output_last_duration (r_self r) = a
      /\ output_time_turned_on (r_self r) = output_time_turned_on self
      /\ (tc = false \/ triggers_ok self e ->
          r_val r =
            inr (0, MsgOnFor (unique_id self) (output_name self) (Z.abs a)))).
Proof.
  intros Hon Hs Hsec Hcap Ha Hoff _ _ _ r a. subst r a.
  rewrite (output_on_off_on_request _ _ _ _ _ _ _ Hon Hs), Hoff.
  pose proof (@on_branch_timed e otype (amount_or_0 amount) min_off false
                (env_now e) self Hsec Hcap Ha) as Hb.
  rewrite on_for_amount_switch in Hb.
  destruct (env_switch_raises e) eqn:Hr.
  - rewrite (bind_raised _ _ _ Hb). cbn [r_trace].
    split; [reflexivity|]. split; [reflexivity|]. discriminate.
  - rewrite (bind_finish_returned _ _ _ _ _ Hb). cbn [r_self r_trace r_val].
    rewrite finish_continue_trace.
    change ([?x] ++ ?t) with (x :: t).
    match goal with
    | |- context [trigger_trace ?e0 ?a0 ?tc0 ?s0] =>
        destruct (trigger_trace_no_samples e0 a0 tc0 s0) as [Hsam Hsw]
    end.
    split; [cbn; now rewrite Hsw|]. split; [cbn; exact Hsam|].
    intros _. unfold armed.
    destruct (negb (min_off =? 0)%Z); (repeat (split; [reflexivity|]));
      intros Hok; apply finish_continue_returns;
      (destruct Hok as [Hok|Hok]; [now left|right; exact Hok]).
Qed.

Lemma timed_on_from_off_witness :
  let r := call (Scenario.on_for 0 (-30) 10 false) Scenario.relay in
  switches_of (r_trace r) = [EvSwitch "on" (Some "sec") (Some (-30))]
  /\ output_on_duration (r_self r) = true
  /\ output_on_until (r_self r) = 30
  /\ output_last_duration (r_self r) = -30.
Proof.
  intros r.
  destruct (@timed_on_from_off
              (Scenario.env_at 0 false true false []) (PStr "on")
              (Some "sec") (Some (-30)) 10 true Scenario.relay)
    as (H1 & _ & H2).
  - reflexivity.
  - reflexivity.
  - reflexivity.
  - reflexivity.
  - discriminate.
  - reflexivity.
  - vm_compute. split; [discriminate|reflexivity].
  - vm_compute. split; [discriminate|reflexivity].
  - intros _. vm_compute. split; [discriminate|reflexivity].
  - destruct (H2 eq_refl) as (H3 & H4 & H5 & _).
    split; [exact H1|]. split; [exact H3|]. split; [exact H4|exact H5].
Defined.





(** ** ON without a duration *)

(** X11: an ON request without duration (['sec'] or no [output_type],
    amount 0 or none) on an output whose information lists ['on_off'],
    that the driver reports on and that cannot be forced, is refused with
    code 1 and the "already on" message; nothing is called and no field
    changes. *)
Theorem already_on_is_refused e state otype amount min_off tc self :
  is_on_request state = true ->
  env_is_setup e = true ->
  in_sec_or_None otype = true ->
  on_off_in_information self = true ->
  amount_or_0 amount = 0 ->
  env_is_on e = true ->
  output_force_command self = false ->
  output_on_off e state otype amount min_off tc self =
  {| r_self := self; r_trace := [];
     r_val :=
       inr (1, MsgAlreadyOn (unique_id self) (output_name self)) |}.
Proof.
  intros Hon Hs Hsec Hinfo Ha Hison Hforce.
  rewrite (output_on_off_on_request _ _ _ _ _ _ _ Hon Hs), Hison.
  pose proof (@on_branch_plain e otype (amount_or_0 amount) min_off true
                (env_now e) self Hsec Hinfo Ha) as Hb.
  rewrite on_no_duration_run, Hforce in Hb. cbn [andb negb] in Hb.
  rewrite (bind_finish_returned _ _ _ _ _ Hb), finish_return.
  reflexivity.
Qed.

Lemma already_on_is_refused_witness :
  let self := r_self (call (Scenario.plain_on 0 None false false)
                        Scenario.relay) in
  call (Scenario.plain_on 4 None true false) self =
  {| r_self := self; r_trace := [];
     r_val := inr (1, MsgAlreadyOn "0a1b2c3d-relay" "Pump relay") |}.
Proof.
  intros self.
  apply (@already_on_is_refused
           (Scenario.env_at 4 true true false []) (PStr "on") None None 0
           true self); reflexivity.
Defined.

(** X12: an ON request without duration on an output whose information
    lists ['on_off'], that is reported off or can be forced, calls the
    driver with ['on'] and ['sec'] and no amount; [time_turned_on] becomes
    [now] if it was unset and keeps its value otherwise (also when the
    driver raises); [on_duration], [on_until], [last_duration] and
    [off_until] are untouched; unless the driver or the trigger evaluation
    raises, the call returns code 0 with the instant the run began. *)
Theorem plain_on_starts_indefinite_run e state otype amount min_off tc self :
  is_on_request state = true ->
  env_is_setup e = true ->
  in_sec_or_None otype = true ->
  on_off_in_information self = true ->
  amount_or_0 amount = 0 ->
  env_is_on e = false \/ output_force_command self = true ->
  let r := output_on_off e state otype amount min_off tc self in
  let began :=
    match output_time_turned_on self with
    | Some t => t
    | None => env_now e
    end in
  switches_of (r_trace r) = [EvSwitch "on" (Some "sec") None]
  /\ samples_of (r_trace r) = []
  /\ output_time_turned_on (r_self r) = Some began
  /\ output_on_duration (r_self r) = output_on_duration self
  /\ output_on_until (r_self r) = output_on_until self
  /\ output_last_duration (r_self r) = output_last_duration self
  /\ output_off_until (r_self r) = output_off_until self
  /\ (env_switch_raises e = false ->
      tc = false \/ triggers_ok self e ->
      r_val r =
        inr (0, MsgOnAt (unique_id self) (output_name self) (Some began))).
Proof.
  intros Hon Hs Hsec Hinfo Ha Hcan r began. subst r began.
  rewrite (output_on_off_on_request _ _ _ _ _ _ _ Hon Hs).
  pose proof (@on_branch_plain e otype (amount_or_0 amount) min_off
                (env_is_on e) (env_now e) self Hsec Hinfo Ha) as Hb.
  rewrite on_no_duration_run in Hb.
  assert (Hgo : env_is_on e && negb (output_force_command self) = false).
  { destruct Hcan as [-> | ->]; [reflexivity|apply andb_false_r]. }
  rewrite Hgo in Hb.
  assert (Ht : output_time_turned_on (turned_on_at (env_now e) self)
               = Some match output_time_turned_on self with
                      | Some t => t
                      | None => env_now e
                      end).
  { unfold turned_on_at. destruct (output_time_turned_on self) eqn:E;
      [exact E|reflexivity]. }
  assert (Hf : output_on_duration (turned_on_at (env_now e) self)
               = output_on_duration self
               /\ output_on_until (turned_on_at (env_now e) self)
                  = output_on_until self
               /\ output_last_duration (turned_on_at (env_now e) self)
                  = output_last_duration self
               /\ output_off_until (turned_on_at (env_now e) self)
                  = output_off_until self
               /\ unique_id (turned_on_at (env_now e) self) = unique_id self).
  { unfold turned_on_at. destruct (output_time_turned_on self);
      repeat split. }
  destruct Hf as (F1 & F2 & F3 & F4 & F5).
  destruct (env_switch_raises e) eqn:Hr.
  - rewrite (bind_raised _ _ _ Hb). cbn [r_self r_trace r_val].
    repeat (split; [first [reflexivity | assumption]|]). discriminate.
  - rewrite (bind_finish_returned _ _ _ _ _ Hb). cbn [r_self r_trace r_val].
    rewrite finish_continue_trace.
    change ([?x] ++ ?t) with (x :: t).
    match goal with
    | |- context [trigger_trace ?e0 ?a0 ?tc0 ?s0] =>
        destruct (trigger_trace_no_samples e0 a0 tc0 s0) as [Hsam Hsw]
    end.
    split; [cbn; now rewrite Hsw|]. split; [cbn; exact Hsam|].
    repeat (split; [assumption|]).
    intros _ Hok. rewrite Ht. apply finish_continue_returns.
    destruct Hok as [Hok|Hok]; [now left|right].
    exact (@triggers_ok_same_id self _ e F5 Hok).
Qed.

Lemma plain_on_starts_indefinite_run_witness :
  let r := call (Scenario.plain_on 7 (Some "sec") false false)
             Scenario.relay in
  switches_of (r_trace r) = [EvSwitch "on" (Some "sec") None]
  /\ output_time_turned_on (r_self r) = Some 7
  /\ r_val r = inr (0, MsgOnAt "0a1b2c3d-relay" "Pump relay" (Some 7)).
Proof.
  intros r.
  destruct (@plain_on_starts_indefinite_run
              (Scenario.env_at 7 false true false []) (PStr "on")
              (Some "sec") None 0 true Scenario.relay)
    as (H1 & _ & H2 & _ & _ & _ & _ & H3).
  - reflexivity.
  - reflexivity.
  - reflexivity.
  - reflexivity.
  - reflexivity.
  - left. reflexivity.
  - split; [exact H1|]. split; [exact H2|].
    apply H3; [reflexivity|]. right. left. reflexivity.
Defined.

(** ** The minimum-off check and the output's information *)

(** X13: an ON request with [output_type] ['on_off'] on an output whose
    information has the key ['output_types'], that the driver reports
    off, made while [off_until] lies ahead, is refused with code 1 and a
    message carrying the seconds left ([off_until - now]); nothing is
    called and no field changes. *)
Theorem on_off_request_waits_for_off_until
    e state amount min_off tc self info l t :
  is_on_request state = true ->
  env_is_setup e = true ->
  OUTPUT_INFORMATION self = Some info ->
  oi_output_types info = Some l ->
  env_is_on e = false ->
  output_off_until self = OffAt t ->
  t > env_now e ->
  output_on_off e state (Some "on_off") amount min_off tc self =
  {| r_self := self; r_trace := [];
     r_val :=
       inr (1, MsgStayOff (unique_id self) (output_name self)
                 (t - env_now e)) |}.
Proof.
  intros Hon Hs Hinfo Hl Hoff Hu Ht.
  rewrite (output_on_off_on_request _ _ _ _ _ _ _ Hon Hs), Hoff.
  assert (Hb : on_branch e (Some "on_off") (amount_or_0 amount) min_off false
                 (env_now e) self =
               {| r_self := self; r_trace := [];
                  r_val :=
                    inr (Return 1
                           (MsgStayOff (unique_id self) (output_name self)
                              (t - env_now e))) |}).
  { unfold on_branch, interlock, has_output_types_key, bind, get, ret.
    change (opt_is (Some "on_off") "on_off") with true.
    cbn. rewrite Hinfo. cbn. rewrite Hl. cbn. rewrite Hu.
    apply Z.gtb_gt in Ht. rewrite Ht. reflexivity. }
  rewrite (bind_finish_returned _ _ _ _ _ Hb), finish_return.
  reflexivity.
Qed.

Lemma on_off_request_waits_for_off_until_witness :
  let self :=
    run_calls Scenario.relay
      [Scenario.on_for 0 20 60 false; Scenario.off 5 true] in
  call (Scenario.plain_on 6 (Some "on_off") false false) self =
  {| r_self := self; r_trace := [];
     r_val := inr (1, MsgStayOff "0a1b2c3d-relay" "Pump relay" 74) |}.
Proof.
  intros self.
  apply (@on_off_request_waits_for_off_until
           (Scenario.env_at 6 false true false []) (PStr "on") None 0 true
           self Scenario.relay_info ["on_off"] 80); reflexivity.
Defined.

Lemma on_branch_without_on_off e otype amount min_off is_on now self info :
  OUTPUT_INFORMATION self = Some info ->
  on_off_in_information self = false ->
  in_sec_or_None otype = true ->
  amount = 0 ->
  on_branch e otype amount min_off is_on now self =
  {| r_self := self; r_trace := []; r_val := inr (Continue MsgEmpty) |}.
Proof.
  intros Hinfo Hno Hsec ->.
  destruct (sec_or_None_is_not _ Hsec) as (Hoo & Hvol & Hpwm).
  unfold on_branch.
  rewrite (bind_returned _ _ _
             (@interlock_skipped otype is_on now self Hoo)).
  unfold has_output_types_key, bind, get, ret.
  rewrite Hvol, Hpwm, Hsec. cbn. rewrite Z.eqb_refl. cbn.
  rewrite andb_false_r. cbn. rewrite Hinfo. cbn.
  rewrite Hno, andb_false_r. reflexivity.
Qed.

(** X14: when the output's information has no ['output_types'] key, or
    that list lacks ['on_off'], an ON request without duration does
    nothing and is reported as accepted: no driver call, no field change,
    the trigger evaluator entered if asked for, code 0 and the empty
    message. *)
Theorem plain_on_without_on_off_is_a_no_op
    e state otype amount min_off tc self info :
  is_on_request state = true ->
  env_is_setup e = true ->
  OUTPUT_INFORMATION self = Some info ->
  on_off_in_information self = false ->
  in_sec_or_None otype = true ->
  amount_or_0 amount = 0 ->
  let r := output_on_off e state otype amount min_off tc self in
  r_self r = self
  /\ r_trace r = trigger_trace e 0 tc self
  /\ switches_of (r_trace r) = []
  /\ (tc = false \/ triggers_ok self e -> r_val r = inr (0, MsgEmpty)).
Proof.
  intros Hon Hs Hinfo Hno Hsec Ha r. subst r.
  rewrite (output_on_off_on_request _ _ _ _ _ _ _ Hon Hs).
  rewrite (bind_finish_returned _ _ _ _ _
             (@on_branch_without_on_off e otype (amount_or_0 amount) min_off
                (env_is_on e) (env_now e) self info Hinfo Hno Hsec Ha)).
  cbn [r_self r_trace r_val app]. rewrite finish_continue_trace, Ha.
  split; [reflexivity|]. split; [reflexivity|].
  split; [apply trigger_trace_no_samples|].
  apply finish_continue_returns.
Qed.

Lemma plain_on_without_on_off_is_a_no_op_witness :
  let bare :=
    fresh Scenario.relay_row Scenario.types {| oi_output_types := None |}
      0 0 in
  let r :=
    output_on_off (Scenario.env_at 2 false false false []) (PStr "on")
      None None 0 false bare in
  r_self r = bare /\ r_trace r = [] /\ r_val r = inr (0, MsgEmpty).
Proof.
  intros bare r.
  destruct (@plain_on_without_on_off_is_a_no_op
              (Scenario.env_at 2 false false false []) (PStr "on") None None
              0 false bare {| oi_output_types := None |})
    as (H1 & H2 & _ & H3); try reflexivity.
  split; [exact H1|]. split; [exact H2|]. apply H3. left. reflexivity.
Defined.

(** X15: on an object whose [OUTPUT_INFORMATION] is still [None]
    ([setup_on_off_output] was not called), an ON request without duration
    or with [output_type] ['on_off'] raises [TypeError] at the membership
    test, before any driver call and with no field changed. *)
Theorem on_request_without_information_raises
    e state otype amount min_off tc self :
  is_on_request state = true ->
  env_is_setup e = true ->
  OUTPUT_INFORMATION self = None ->
  (in_sec_or_None otype = true /\ amount_or_0 amount = 0)
  \/ otype = Some "on_off" ->
  output_on_off e state otype amount min_off tc self =
  {| r_self := self; r_trace := []; r_val := inl TypeError |}.
Proof.
  intros Hon Hs Hinfo Hcase.
  rewrite (output_on_off_on_request _ _ _ _ _ _ _ Hon Hs).
  apply bind_raised.
  destruct Hcase as [(Hsec & Ha) | ->].
  - destruct (sec_or_None_is_not _ Hsec) as (Hoo & Hvol & Hpwm).
    unfold on_branch.
    rewrite (bind_returned _ _ _
               (@interlock_skipped otype (env_is_on e) (env_now e) self Hoo)).
    unfold has_output_types_key, bind, get, ret, raise.
    rewrite Hvol, Hpwm, Hsec, Ha. cbn. rewrite Z.eqb_refl. cbn.
    rewrite andb_false_r. cbn. rewrite Hinfo. reflexivity.
  - unfold on_branch, interlock, has_output_types_key, bind, get, ret, raise.
    change (opt_is (Some "on_off") "on_off") with true.
    cbn. rewrite Hinfo. reflexivity.
Qed.

Lemma on_request_without_information_raises_witness :
  let raw := AbstractOutput_init Scenario.relay_row Scenario.types 0 in
  output_on_off (Scenario.env_at 2 false false false []) (PStr "on")
    None None 0 true raw =
  {| r_self := raw; r_trace := []; r_val := inl TypeError |}.
Proof.
  intros raw.
  apply (@on_request_without_information_raises
           (Scenario.env_at 2 false false false []) (PStr "on") None None 0
           true raw); try reflexivity.
  left. split; reflexivity.
Defined.

(** ** One request after another *)


Lemma plain_on_state e state otype amount min_off tc self :
  is_on_request state = true ->
  env_is_setup e = true ->
  in_sec_or_None otype = true ->
  on_off_in_information self = true ->
  amount_or_0 amount = 0 ->
  env_is_on e = false ->
  r_self (output_on_off e state otype amount min_off tc self)
  = turned_on_at (env_now e) self.
Proof.
  intros Hon Hs Hsec Hinfo Ha Hoff.
  rewrite (output_on_off_on_request _ _ _ _ _ _ _ Hon Hs), Hoff.
  rewrite bind_finish_self.
  rewrite (@on_branch_plain e otype (amount_or_0 amount) min_off false
             (env_now e) self Hsec Hinfo Ha).
  rewrite on_no_duration_run. cbn [andb].
  destruct (env_switch_raises e); reflexivity.
Qed.

Lemma off_request_run e state otype amount min_off tc self :
  is_off_request state = true ->
  env_is_setup e = true ->
  env_switch_raises e = false ->
  let r := output_on_off e state otype amount min_off tc self in
  r_self r = switched_off (env_now e) self
  /\ samples_of (r_trace r) =
     match output_time_turned_on self with
     | Some turned_on =>
         [indefinite_sample (env_utcnow e) (env_now e) turned_on self]
     | None =>
         if output_on_duration self
         then [duration_sample (env_utcnow e) (env_now e) self]
         else []
     end.
Proof.
  intros Hoff Hs Hr r. subst r.
  rewrite (output_on_off_off_request _ _ _ _ _ _ _ Hoff Hs).
  split.
  - rewrite bind_finish_self, (off_branch_run _ otype (env_now e) self Hr).
    reflexivity.
  - rewrite (proj2 (bind_finish_effects _ _ _ _ _)),
      (off_branch_run _ otype (env_now e) self Hr).
    cbn [r_trace samples_of].
    destruct (output_time_turned_on self); [reflexivity|].
    destruct (output_on_duration self); reflexivity.
Qed.

(** X16: an ON without duration at [now1] on an output that is off and in
    neither mode, followed by an OFF at [now2] (driver calls not raising):
    the OFF hands over one sample of value [now2 - now1], stamped
    [utcnow2 - (now2 - now1)], and leaves [time_turned_on] unset. *)
Theorem indefinite_run_is_recorded_at_off
    e1 state1 otype1 amount1 min_off1 tc1
    e2 state2 otype2 amount2 min_off2 tc2 self :
  is_on_request state1 = true ->
  env_is_setup e1 = true ->
  in_sec_or_None otype1 = true ->
  on_off_in_information self = true ->
  amount_or_0 amount1 = 0 ->
  env_is_on e1 = false ->
  output_on_duration self = false ->
  output_time_turned_on self = None ->
  is_off_request state2 = true ->
  env_is_setup e2 = true ->
  env_switch_raises e2 = false ->
  let s1 :=
    r_self (output_on_off e1 state1 otype1 amount1 min_off1 tc1 self) in
  let r2 := output_on_off e2 state2 otype2 amount2 min_off2 tc2 s1 in
  samples_of (r_trace r2) =
    [ {| ds_unique_id := unique_id self; ds_unit := "s";
         ds_value := Some (env_now e2 - env_now e1);
         ds_measure := "duration_time"; ds_channel := 0;
         ds_timestamp :=
           Some (env_utcnow e2 - (env_now e2 - env_now e1)) |} ]
  /\ output_time_turned_on (r_self r2) = None
  /\ output_on_duration (r_self r2) = false.
Proof.
  intros Hon Hs1 Hsec Hinfo Ha Hoff1 Hd Ht Hoff Hs2 Hr2 s1 r2.
  subst s1 r2.
  rewrite (plain_on_state e1 state1 otype1 amount1 min_off1 tc1 self
             Hon Hs1 Hsec Hinfo Ha Hoff1).
  destruct (off_request_run e2 state2 otype2 amount2 min_off2 tc2
              (turned_on_at (env_now e1) self) Hoff Hs2 Hr2) as [-> ->].
  unfold turned_on_at, switched_off, indefinite_sample. rewrite Ht.
  destruct self; cbn in *. subst. repeat split.
Qed.

Lemma indefinite_run_is_recorded_at_off_witness :
  let s1 := r_self (call (Scenario.plain_on 3 None false false)
                      Scenario.relay) in
  let r2 := call (Scenario.off 45 true) s1 in
  map ds_value (samples_of (r_trace r2)) = [Some 42]
  /\ output_time_turned_on (r_self r2) = None.
Proof.
  intros s1 r2.
  destruct (@indefinite_run_is_recorded_at_off
              (Scenario.env_at 3 false true false []) (PStr "on") None None
              0 true
              (Scenario.env_at 45 true false false []) (PStr "off") None None
              0 true Scenario.relay)
    as (H1 & H2 & _); try reflexivity.
  split; [exact (f_equal (map ds_value) H1)|exact H2].
Defined.





(** ** [output_sec_currently_on] after a request *)




(** X20: after an OFF request whose driver call did not raise,
    [output_sec_currently_on] is 0 at every later reading, whatever the
    driver then reports: both modes have been cleared. *)
Theorem seconds_on_are_zero_after_off
    e state otype amount min_off tc self later :
  is_off_request state = true ->
  env_is_setup e = true ->
  env_switch_raises e = false ->
  output_sec_currently_on later
    (r_self (output_on_off e state otype amount min_off tc self)) = 0.
Proof.
  intros Hoff Hs Hr.
  rewrite (proj1 (off_request_run e state otype amount min_off tc self
                    Hoff Hs Hr)).
  unfold output_sec_currently_on, switched_off.
  destruct (env_is_on later); cbn [negb]; [|reflexivity].
  destruct self; cbn.
  destruct output_on_duration0, output_time_turned_on0; reflexivity.
Qed.

Lemma seconds_on_are_zero_after_off_witness :
  let s :=
    run_calls Scenario.relay
      [Scenario.plain_on 0 None false false; Scenario.on_for 5 20 0 true;
       Scenario.off 9 true] in
  output_sec_currently_on (Scenario.env_at 12 true true false []) s = 0.
Proof.
  intros s.
  apply (@seconds_on_are_zero_after_off
           (Scenario.env_at 9 true false false []) (PStr "off") None None 0
           true
           (run_calls Scenario.relay
              [Scenario.plain_on 0 None false false;
               Scenario.on_for 5 20 0 true])
           (Scenario.env_at 12 true true false [])); reflexivity.
Defined.

(** ** What no sequence of requests changes *)

Lemma on_branch_off_triggered e otype amount min_off is_on now self :
  output_off_triggered
    (r_self (on_branch e otype amount min_off is_on now self))
  = output_off_triggered self.
Proof.
  unfold_py. destruct self. crunch. all: reflexivity.
Qed.

Lemma off_branch_off_triggered e otype now self :
  output_off_triggered self = false ->
  output_off_triggered (r_self (off_branch e otype now self)) = false.
Proof.
  intros H. destruct (env_switch_raises e) eqn:Hr.
  - now rewrite (off_branch_raises _ otype now self Hr).
  - rewrite (off_branch_run _ otype now self Hr). reflexivity.
Qed.

(** X21: [off_triggered] is false in every state an output can reach from
    its set-up: [output_on_off] only ever assigns [False] to it. *)
Theorem off_triggered_is_never_set self :
  reachable self -> output_off_triggered self = false.
Proof.
  induction 1 as [output types info t0 t1 | self c Hr IH].
  - reflexivity.
  - unfold call.
    destruct (output_on_off_cases (c_env c) (c_state c) (c_otype c)
                (c_amount c) (c_min_off c) (c_trigger_conditionals c) self)
      as [H | [H | [(_ & _ & H) | (_ & _ & H)]]]; rewrite H.
    + exact IH.
    + exact IH.
    + rewrite bind_finish_self, on_branch_off_triggered. exact IH.
    + rewrite bind_finish_self. now apply off_branch_off_triggered.
Qed.

Lemma off_triggered_is_never_set_witness :
  output_off_triggered
    (run_calls Scenario.relay
       [Scenario.on_for 0 20 5 false; Scenario.off 3 true;
        Scenario.plain_on 30 None false false]) = false.
Proof.
  apply off_triggered_is_never_set.
  apply reachable_run_calls. apply reach_fresh.
Defined.

Lemma same_config_trans s1 s2 s3 :
  same_config s1 s2 -> same_config s2 s3 -> same_config s1 s3.
Proof.
  unfold same_config.
  intros (A1 & A2 & A3 & A4 & A5 & A6) (B1 & B2 & B3 & B4 & B5 & B6).
  repeat split; congruence.
Qed.

(** X22: no sequence of requests, accepted, refused or raising, changes
    what the object was configured with: identifier, name, type,
    [force_command], the table of output types and
    [OUTPUT_INFORMATION]. *)
Theorem requests_keep_the_configuration cs : forall self,
  let s := run_calls self cs in
  unique_id s = unique_id self
  /\ output_name s = output_name self
  /\ output_type s = output_type self
  /\ output_force_command s = output_force_command self
  /\ output_types s = output_types self
  /\ OUTPUT_INFORMATION s = OUTPUT_INFORMATION self.
Proof.
  induction cs as [|c cs IH]; intros self; cbn.
  - repeat split.
  - apply (same_config_trans (call_config c self) (IH (r_self (call c self)))).
Qed.

(** ** Requests made with [trigger_conditionals] false *)

Lemma on_branch_trace_events e otype amount min_off is_on now self :
  Forall is_switch_or_sample
    (r_trace (on_branch e otype amount min_off is_on now self)).
Proof.
  unfold_py. destruct self. crunch.
  all: repeat constructor.
Qed.

Lemma off_branch_trace_events e otype now self :
  Forall is_switch_or_sample (r_trace (off_branch e otype now self)).
Proof.
  destruct (env_switch_raises e) eqn:Hr.
  - rewrite (off_branch_raises _ otype now self Hr). repeat constructor.
  - rewrite (off_branch_run _ otype now self Hr). cbn.
    destruct (output_time_turned_on self), (output_on_duration self);
      repeat constructor.
Qed.

(** X23: with [trigger_conditionals] false the trigger evaluator is never
    entered: the trace of the call holds driver calls and samples only, so
    no rule is dispatched and no failure of the evaluator can reach the
    caller. *)
Theorem no_trigger_evaluation_when_disabled
    e state otype amount min_off self :
  let r := output_on_off e state otype amount min_off false self in
  Forall is_switch_or_sample (r_trace r)
  /\ (forall a, ~ triggers_checked a (r_trace r))
  /\ (forall id, dispatches_of id (r_trace r) = O).
Proof.
  intros r.
  assert (H : Forall is_switch_or_sample (r_trace r)).
  { subst r.
    destruct (output_on_off_cases e state otype amount min_off false self)
      as [H | [H | [(_ & _ & H) | (_ & _ & H)]]]; rewrite H.
    - constructor.
    - constructor.
    - destruct (on_branch e otype (amount_or_0 amount) min_off (env_is_on e)
                  (env_now e) self) as [s1 t1 [x|fl]] eqn:E.
      + rewrite (bind_raised _ _ _ E). cbn.
        pose proof (on_branch_trace_events e otype (amount_or_0 amount)
                      min_off (env_is_on e) (env_now e) self) as Ht.
        now rewrite E in Ht.
      + rewrite (bind_finish_returned _ _ _ _ _ E). cbn [r_trace].
        pose proof (on_branch_trace_events e otype (amount_or_0 amount)
                      min_off (env_is_on e) (env_now e) self) as Ht.
        rewrite E in Ht. cbn in Ht.
        destruct fl; cbn; rewrite app_nil_r; exact Ht.
    - destruct (off_branch e otype (env_now e) self) as [s1 t1 [x|fl]] eqn:E.
      + rewrite (bind_raised _ _ _ E). cbn.
        pose proof (off_branch_trace_events e otype (env_now e) self) as Ht.
        now rewrite E in Ht.
      + rewrite (bind_finish_returned _ _ _ _ _ E). cbn [r_trace].
        pose proof (off_branch_trace_events e otype (env_now e) self) as Ht.
        rewrite E in Ht. cbn in Ht.
        destruct fl; cbn; rewrite app_nil_r; exact Ht. }
  split; [exact H|]. split.
  - intros a Hin. unfold triggers_checked in Hin.
    rewrite Forall_forall in H. apply H in Hin. exact Hin.
  - intros id. induction H as [|ev tr Hev _ IH]; [reflexivity|].
    destruct ev; cbn in Hev; try contradiction; cbn; exact IH.
Qed.

(** ** The trigger evaluator: what is dispatched *)

Lemma select_trigger_output_sound self e amount t :
  In t (select_trigger_output self e amount) ->
  In t (env_triggers e)
  /\ Trigger.trigger_type t = "trigger_output"
  /\ Trigger.unique_id_1 t = unique_id self
  /\ Trigger.is_activated t = true.
Proof.
  unfold select_trigger_output. intros H.
  assert (H3 : In t
                 (filter (fun t => Bool.eqb (Trigger.is_activated t) true)
                    (filter (fun t => String.eqb (Trigger.unique_id_1 t)
                                        (unique_id self))
                       (filter (fun t => String.eqb (Trigger.trigger_type t)
                                           "trigger_output")
                          (env_triggers e))))).
  { destruct (env_is_on_after e).
    - apply filter_In in H. destruct H as [H _].
      apply filter_In in H. now destruct H as [H _].
    - apply filter_In in H. now destruct H as [H _]. }
  apply filter_In in H3. destruct H3 as [H3 Hact].
  apply filter_In in H3. destruct H3 as [H3 Hid].
  apply filter_In in H3. destruct H3 as [H3 Hty].
  apply String.eqb_eq in Hid, Hty. apply Bool.eqb_prop in Hact.
  now repeat split.
Qed.

Lemma select_trigger_output_pwm_sound self e t :
  In t (select_trigger_output_pwm self e) <->
  In t (env_triggers e)
  /\ Trigger.trigger_type t = "trigger_output_pwm"
  /\ Trigger.unique_id_1 t = unique_id self
  /\ Trigger.is_activated t = true.
Proof.
  unfold select_trigger_output_pwm.
  rewrite !filter_In, !String.eqb_eq.
  split.
  - intros [[[H1 H2] H3] H4]. apply Bool.eqb_prop in H4. now repeat split.
  - intros (H1 & H2 & H3 & H4). rewrite H4. now repeat split.
Qed.

Lemma pwm_loop_bound_rules self e :
  Forall (dispatch_of_bound_rule self e) (r_trace (pwm_loop self e)).
Proof.
  unfold pwm_loop. apply for_each_trace_Forall. intros x s Hx.
  apply select_trigger_output_pwm_sound in Hx.
  destruct Hx as (H1 & _ & H3 & H4).
  unfold pwm_body, bind, output_state_call.
  destruct (env_output_state e) as [d|]; cbn; [|constructor].
  destruct (negb (pwm_trigger_trigger d x)); cbn; [constructor|].
  constructor; [|constructor]. cbn. exists x. now repeat split.
Qed.

(** X24: [check_triggers] never touches the object, calls the driver or
    records a sample: after being entered it only dispatches, and every
    dispatch is for a rule of the table that is activated and bound to this
    output. *)
Theorem check_triggers_only_dispatches_bound_rules e amount self :
  let r := check_triggers e amount self in
  r_self r = self
  /\ exists tl,
       r_trace r = EvCheckTriggers amount :: tl
       /\ Forall (dispatch_of_bound_rule self e) tl.
Proof.
  intros r. subst r. rewrite check_triggers_run. cbn [r_self r_trace].
  split; [reflexivity|]. eexists. split; [reflexivity|].
  apply Forall_app. split.
  - apply Forall_forall. intros ev Hin. apply in_map_iff in Hin.
    destruct Hin as (t & <- & Ht).
    apply select_trigger_output_sound in Ht.
    destruct Ht as (H1 & _ & H3 & H4).
    cbn. exists t. now repeat split.
  - apply pwm_loop_bound_rules.
Qed.

Ltac split_orb H :=
  match type of H with
  | (_ || _) = true =>
      apply orb_prop in H; destruct H as [H|H]; [split_orb H|]
  | _ => idtac
  end.

Lemma on_duration_clause_table amount t :
  on_duration_clause amount t = true <->
  on_duration_matches (Trigger.output_state t) (Trigger.output_duration t)
    amount.
Proof.
  unfold on_duration_clause, on_duration_matches. cbv zeta. split.
  - intros H. split_orb H.
    all: try (apply andb_prop in H; destruct H as [Hk Hc]).
    all: try apply String.eqb_eq in Hk; try apply String.eqb_eq in H.
    + left. split; [exact Hk|]. now apply Z.eqb_eq.
    + right. left. split; [exact Hk|].
      apply negb_true_iff in Hc. now apply Z.eqb_neq.
    + right. right. left. exact H.
    + do 3 right. left. split; [exact Hk|]. now apply Z.eqb_eq.
    + do 4 right. left. split; [exact Hk|]. now apply Z.gtb_gt.
    + do 5 right. left. split; [exact Hk|].
      apply Z.geb_le in Hc. lia.
    + do 6 right. left. split; [exact Hk|]. now apply Z.ltb_lt.
    + do 7 right. split; [exact Hk|]. now apply Z.leb_le.
  - intros [(-> & Ha) | [(-> & Ha) | [-> | [(-> & Ha) | [(-> & Ha)
             | [(-> & Ha) | [(-> & Ha) | (-> & Ha)]]]]]]];
      eval_string_eqb; cbn [andb orb].
    + apply Z.eqb_eq in Ha. now rewrite Ha.
    + apply Z.eqb_neq in Ha. rewrite Ha. reflexivity.
    + reflexivity.
    + apply Z.eqb_eq in Ha. now rewrite Ha.
    + apply Z.gtb_gt in Ha. now rewrite Ha.
    + assert (Hc : (amount >=? Trigger.output_duration t)%Z = true).
      { apply Z.geb_le. lia. }
      now rewrite Hc.
    + apply Z.ltb_lt in Ha. rewrite Ha. reflexivity.
    + apply Z.leb_le in Ha. rewrite Ha. reflexivity.
Qed.

Lemma on_duration_matches_kind kind threshold amount :
  on_duration_matches kind threshold amount ->
  str_in kind on_duration_kinds = true.
Proof.
  intros [(-> & _) | [(-> & _) | [-> | [(-> & _) | [(-> & _)
            | [(-> & _) | [(-> & _) | (-> & _)]]]]]]]; reflexivity.
Qed.

(** X25: while the output is reported on, the [trigger_output] rules
    dispatched are exactly the rows of the table that are of that class,
    bound to this output, activated, and whose kind matches the amount:
    [on_duration_none] with amount 0, [on_duration_any] with a non-zero
    amount, [on_duration_none_any] always, and the five comparisons of the
    amount with the rule's duration; rules of kind ['off'] are not among
    them. *)
Theorem on_rules_selected_by_amount e amount self t :
  env_is_on_after e = true ->
  (In t (select_trigger_output self e amount) <->
   In t (env_triggers e)
   /\ Trigger.trigger_type t = "trigger_output"
   /\ Trigger.unique_id_1 t = unique_id self
   /\ Trigger.is_activated t = true
   /\ on_duration_matches (Trigger.output_state t)
        (Trigger.output_duration t) amount)
  /\ (Trigger.output_state t = "off" ->
      ~ In t (select_trigger_output self e amount)).
Proof.
  intros Hon.
  assert (Hiff :
    In t (select_trigger_output self e amount) <->
    In t (env_triggers e)
    /\ Trigger.trigger_type t = "trigger_output"
    /\ Trigger.unique_id_1 t = unique_id self
    /\ Trigger.is_activated t = true
    /\ on_duration_matches (Trigger.output_state t)
         (Trigger.output_duration t) amount).
  { unfold select_trigger_output. rewrite Hon.
    rewrite !filter_In, !String.eqb_eq, on_duration_clause_table.
    split.
    - intros [[[[[H1 H2] H3] H4] _] H6]. apply Bool.eqb_prop in H4.
      now repeat split.
    - intros (H1 & H2 & H3 & H4 & H6). rewrite H4.
      pose proof (on_duration_matches_kind H6) as H5. now repeat split. }
  split; [exact Hiff|].
  intros Hoff Hin. apply Hiff in Hin. destruct Hin as (_ & _ & _ & _ & Hm).
  rewrite Hoff in Hm.
  destruct Hm as [(H & _) | [(H & _) | [H | [(H & _) | [(H & _)
            | [(H & _) | [(H & _) | (H & _)]]]]]]]; discriminate H.
Qed.

Lemma on_rules_selected_by_amount_witness :
  let e := Scenario.env_at 0 true true false [Scenario.rule_gt_15] in
  In Scenario.rule_gt_15 (select_trigger_output Scenario.relay e 16).
Proof.
  intros e.
  apply (proj1 (@on_rules_selected_by_amount e 16 Scenario.relay
                  Scenario.rule_gt_15 eq_refl)).
  split; [now left|]. repeat (split; [reflexivity|]).
  do 4 right. left. split; reflexivity.
Defined.

(** X26: while the output is reported off, the [trigger_output] rules
    dispatched are exactly the rows of that class bound to this output,
    activated and of kind ['off'], whatever the amount; the dispatches of
    the first loop follow the order of the table. *)
Theorem off_rules_selected_whatever_the_amount e amount self :
  env_is_on_after e = false ->
  (forall t,
      In t (select_trigger_output self e amount) <->
      In t (env_triggers e)
      /\ Trigger.trigger_type t = "trigger_output"
      /\ Trigger.unique_id_1 t = unique_id self
      /\ Trigger.is_activated t = true
      /\ Trigger.output_state t = "off")
  /\ (forall amount',
        select_trigger_output self e amount'
        = select_trigger_output self e amount)
  /\ exists tl,
       r_trace (check_triggers e amount self)
       = EvCheckTriggers amount
         :: map (output_action self e) (select_trigger_output self e amount)
         ++ tl.
Proof.
  intros Hoff. split; [|split].
  - intros t. unfold select_trigger_output. rewrite Hoff.
    rewrite !filter_In, !String.eqb_eq. split.
    + intros [[[[H1 H2] H3] H4] H5]. apply Bool.eqb_prop in H4.
      now repeat split.
    + intros (H1 & H2 & H3 & H4 & H5). rewrite H4. now repeat split.
  - intros amount'. unfold select_trigger_output. now rewrite Hoff.
  - rewrite check_triggers_run. eexists. reflexivity.
Qed.

Lemma off_rules_selected_whatever_the_amount_witness :
  let e := Scenario.env_at 0 false false false [Scenario.rule_gt_15] in
  select_trigger_output Scenario.relay e 99
  = select_trigger_output Scenario.relay e 20.
Proof.
  intros e.
  exact (proj1 (proj2 (@off_rules_selected_whatever_the_amount e 20
                         Scenario.relay eq_refl)) 99).
Defined.

(** ** The trigger evaluator: duty-cycle rules *)

Lemma pwm_trigger_trigger_table duty_cycle t :
  pwm_trigger_trigger duty_cycle t = true <->
  duty_cycle_matches duty_cycle (Trigger.output_state t)
    (Trigger.output_duty_cycle t).
Proof.
  unfold pwm_trigger_trigger, duty_cycle_matches. cbv zeta.
  destruct duty_cycle as [|v]; split.
  - intros H. split_orb H; apply andb_prop in H; destruct H as [Hk Hc];
      apply String.eqb_eq in Hk.
    + left. split; [exact Hk|]. now apply Z.eqb_eq.
    + right. split; [exact Hk|]. apply negb_true_iff in Hc.
      now apply Z.eqb_neq.
  - intros [(-> & Ha) | (-> & Ha)]; eval_string_eqb; cbn [andb orb].
    + apply Z.eqb_eq in Ha. now rewrite Ha.
    + apply Z.eqb_neq in Ha. now rewrite Ha.
  - intros H. split_orb H; apply andb_prop in H; destruct H as [Hk Hc];
      apply String.eqb_eq in Hk.
    + left. split; [exact Hk|]. now apply Z.gtb_gt.
    + right. left. split; [exact Hk|]. now apply Z.ltb_lt.
    + right. right. split; [exact Hk|]. now apply Z.eqb_eq.
  - intros [(-> & Ha) | [(-> & Ha) | (-> & Ha)]];
      eval_string_eqb; cbn [andb orb].
    + apply Z.gtb_gt in Ha. now rewrite Ha.
    + apply Z.ltb_lt in Ha. now rewrite Ha.
    + apply Z.eqb_eq in Ha. rewrite Ha. reflexivity.
Qed.

Lemma pwm_bodies_run self e d l : forall s,
  env_output_state e = Some d ->
  for_each l (pwm_body self e) s =
  {| r_self := s;
     r_trace := map (pwm_action self e d) (filter (pwm_trigger_trigger d) l);
     r_val := inr tt |}.
Proof.
  induction l as [|x l IH]; intros s Hd.
  - reflexivity.
  - cbn [for_each filter].
    assert (Hx : pwm_body self e x s =
                 {| r_self := s;
                    r_trace :=
                      if pwm_trigger_trigger d x
                      then [pwm_action self e d x] else [];
                    r_val := inr tt |}).
    { unfold pwm_body, bind, output_state_call. rewrite Hd. cbn.
      destruct (pwm_trigger_trigger d x); reflexivity. }
    rewrite (bind_returned _ _ _ Hx), (IH s Hd). cbn [r_self r_trace r_val].
    destruct (pwm_trigger_trigger d x); reflexivity.
Qed.

Lemma pwm_loop_run self e d :
  env_output_state e = Some d ->
  pwm_loop self e =
  {| r_self := self;
     r_trace :=
       map (pwm_action self e d)
         (filter (pwm_trigger_trigger d) (select_trigger_output_pwm self e));
     r_val := inr tt |}.
Proof. intros Hd. unfold pwm_loop. now apply pwm_bodies_run. Qed.

Lemma dispatches_of_pwm_actions self e d id l :
  dispatches_of id (map (pwm_action self e d) l)
  = List.length (filter (fun r => String.eqb (Trigger.unique_id r) id) l).
Proof.
  induction l as [|x l IH]; cbn; [reflexivity|].
  destruct (String.eqb (Trigger.unique_id x) id); cbn; now rewrite IH.
Qed.

Lemma first_loop_skips_pwm_rules self e amount t :
  rows_of t e = [t] ->
  Trigger.trigger_type t = "trigger_output_pwm" ->
  filter (fun r => String.eqb (Trigger.unique_id r) (Trigger.unique_id t))
         (select_trigger_output self e amount) = [].
Proof.
  intros Hrows Hty.
  set (p := fun r => String.eqb (Trigger.unique_id r) (Trigger.unique_id t)).
  destruct (filter p (select_trigger_output self e amount))
    as [|x l] eqn:E; [reflexivity|].
  exfalso.
  assert (Hx : In x (filter p (select_trigger_output self e amount))).
  { rewrite E. now left. }
  apply filter_In in Hx. destruct Hx as [Hsel Hp].
  apply select_trigger_output_sound in Hsel.
  destruct Hsel as (Hin & Hclass & _).
  assert (Hxt : In x (rows_of t e)).
  { unfold rows_of. apply filter_In. now split. }
  rewrite Hrows in Hxt. destruct Hxt as [<- | []].
  rewrite Hty in Hclass. discriminate Hclass.
Qed.

(** X27: a [trigger_output_pwm] rule that is activated and bound to this
    output (one row of the table) is evaluated on every call of the
    evaluator, whatever the amount and whether the output is reported on
    or off: with the duty cycle read as ['off'] it is dispatched once when
    its kind is ['equal'] with threshold 0 or ['below'] with a non-zero
    threshold; with a numeric duty cycle, once when the kind is ['above'],
    ['below'] or ['equal'] and the comparison with the threshold holds;
    not at all otherwise. *)
Theorem duty_cycle_rule_dispatched_by_comparison e amount self t d :
  rows_of t e = [t] ->
  Trigger.trigger_type t = "trigger_output_pwm" ->
  Trigger.unique_id_1 t = unique_id self ->
  Trigger.is_activated t = true ->
  env_output_state e = Some d ->
  let fired :=
    dispatches_of (Trigger.unique_id t)
      (r_trace (check_triggers e amount self)) in
  (duty_cycle_matches d (Trigger.output_state t)
     (Trigger.output_duty_cycle t) -> fired = 1%nat)
  /\ (~ duty_cycle_matches d (Trigger.output_state t)
          (Trigger.output_duty_cycle t) -> fired = 0%nat).
Proof.
  intros Hrows Hty Hid Hact Hd fired.
  assert (Hfired : fired = if pwm_trigger_trigger d t then 1%nat else 0%nat).
  { unfold fired. rewrite check_triggers_run. cbn [r_trace dispatches_of].
    rewrite dispatches_of_app, dispatches_of_actions.
    rewrite (@first_loop_skips_pwm_rules self e amount t Hrows Hty).
    rewrite (pwm_loop_run self e Hd). cbn [r_trace List.length Nat.add].
    rewrite dispatches_of_pwm_actions.
    set (p := fun r => String.eqb (Trigger.unique_id r) (Trigger.unique_id t)).
    rewrite (filter_swap p). unfold select_trigger_output_pwm.
    rewrite !(filter_swap p).
    change (filter p (env_triggers e)) with (rows_of t e). rewrite Hrows.
    cbn [filter]. rewrite Hty, String.eqb_refl.
    cbn [filter]. rewrite Hid, String.eqb_refl.
    cbn [filter]. rewrite Hact. cbn [filter Bool.eqb].
    destruct (pwm_trigger_trigger d t); reflexivity. }
  rewrite Hfired. split.
  - intros Hm. apply pwm_trigger_trigger_table in Hm. now rewrite Hm.
  - intros Hm. destruct (pwm_trigger_trigger d t) eqn:E; [|reflexivity].
    exfalso. apply Hm. now apply pwm_trigger_trigger_table.
Qed.

Lemma duty_cycle_rule_dispatched_by_comparison_witness :
  let rule :=
    {| Trigger.unique_id := "d07c-rule"; Trigger.name := "Fan idle";
       Trigger.trigger_type := "trigger_output_pwm";
       Trigger.unique_id_1 := "0a1b2c3d-relay";
       Trigger.is_activated := true; Trigger.output_state := "below";
       Trigger.output_duration := 0; Trigger.output_duty_cycle := 40 |} in
  let e :=
    {| env_now := 0; env_utcnow := 0; env_time := 0; env_is_on := true;
       env_is_setup := true; env_switch_raises := false;
       env_is_on_after := true; env_triggers := [rule];
       env_output_state := Some DutyOff |} in
  dispatches_of "d07c-rule" (r_trace (check_triggers e 20 Scenario.relay))
  = 1%nat.
Proof.
  intros rule e.
  apply (proj1 (@duty_cycle_rule_dispatched_by_comparison e 20 Scenario.relay
                  rule DutyOff eq_refl eq_refl eq_refl eq_refl eq_refl)).
  right. split; [reflexivity|discriminate].
Defined.

(** X28: [check_triggers] raises exactly when a duty-cycle rule is selected
    (class [trigger_output_pwm], bound to this output, activated) while
    [self.output_state] cannot be called; it then raises [TypeError] after
    the [trigger_output] rules have all been dispatched, and none of the
    duty-cycle rules is. *)
Theorem check_triggers_raises_iff_duty_cycle_unreadable e amount self :
  let r := check_triggers e amount self in
  (r_val r = inl TypeError <->
   select_trigger_output_pwm self e <> [] /\ env_output_state e = None)
  /\ (r_val r = inl TypeError ->
      r_trace r =
        EvCheckTriggers amount
        :: map (output_action self e) (select_trigger_output self e amount))
  /\ r_val r <> inl DriverError.
Proof.
  intros r. subst r. rewrite check_triggers_run. cbn [r_val r_trace].
  assert (Hnone :
    select_trigger_output_pwm self e <> [] -> env_output_state e = None ->
    pwm_loop self e =
    {| r_self := self; r_trace := []; r_val := inl TypeError |}).
  { intros Hne Hn. unfold pwm_loop.
    destruct (select_trigger_output_pwm self e) as [|x l]; [congruence|].
    cbn [for_each]. apply bind_raised.
    unfold pwm_body, bind, output_state_call. rewrite Hn. reflexivity. }
  assert (Hiff :
    r_val (pwm_loop self e) = inl TypeError <->
    select_trigger_output_pwm self e <> [] /\ env_output_state e = None).
  { split.
    - intros Hv.
      destruct (select_trigger_output_pwm self e) as [|x l] eqn:El.
      + unfold pwm_loop in Hv. rewrite El in Hv. discriminate Hv.
      + destruct (env_output_state e) as [d|] eqn:Ed.
        * rewrite (pwm_loop_run self e Ed) in Hv. discriminate Hv.
        * split; [discriminate|reflexivity].
    - intros [Hne Hn]. now rewrite (Hnone Hne Hn). }
  split; [exact Hiff|]. split.
  - intros Hv. apply Hiff in Hv. destruct Hv as [Hne Hn].
    rewrite (Hnone Hne Hn). cbn. now rewrite app_nil_r.
  - destruct (pwm_loop_val self e) as [-> | ->]; discriminate.
Qed.

(** ** [stop_output] *)

Lemma release_locks_held release_raises items :
  exists rest,
    map fst (filter snd items) = release_locks release_raises items ++ rest
    /\ (rest <> [] ->
        exists before lockfile,
          release_locks release_raises items = before ++ [lockfile]
          /\ release_raises lockfile = true).
Proof.
  induction items as [|[lockfile lock_state] items IH]; cbn.
  - exists []. split; [reflexivity|congruence].
  - destruct lock_state; cbn.
    + destruct (release_raises lockfile) eqn:Hr.
      * exists (map fst (filter snd items)). split; [reflexivity|].
        intros _. exists [], lockfile. now split.
      * destruct IH as (rest & Heq & Hlast).
        exists rest. split; [now rewrite Heq|].
        intros Hne. destruct (Hlast Hne) as (before & f & Hb & Hf).
        exists (lockfile :: before), f. rewrite Hb. now split.
    + exact IH.
Qed.

Lemma release_locks_all release_raises items :
  (forall lockfile,
      In (lockfile, true) items -> release_raises lockfile = false) ->
  release_locks release_raises items = map fst (filter snd items).
Proof.
  induction items as [|[lockfile lock_state] items IH]; intros Hok; cbn.
  - reflexivity.
  - destruct lock_state; cbn.
    + rewrite (Hok lockfile) by now left. f_equal.
      apply IH. intros f Hf. apply Hok. now right.
    + apply IH. intros f Hf. apply Hok. now right.
Qed.

(** X29: [stop_output] sets [running] to false and goes through the lock
    files in the order of the dict, releasing those whose state is true
    and no other; it stops without a word at the first release that
    raises, so the releases made are a prefix of the held locks, the last
    of them being the one that raised when some are left; when no release
    raises, every held lock is released; when the lock table cannot be
    read, no release is attempted. *)
Theorem stop_output_releases_held_locks release_raises locked :
  let r := stop_output release_raises locked in
  fst r = false
  /\ (locked = None -> snd r = [])
  /\ (forall items,
        locked = Some items ->
        (forall lockfile, In lockfile (snd r) -> In (lockfile, true) items)
        /\ (exists rest,
              map fst (filter snd items) = snd r ++ rest
              /\ (rest <> [] ->
                  exists before lockfile,
                    snd r = before ++ [lockfile]
                    /\ release_raises lockfile = true))
        /\ ((forall lockfile,
                In (lockfile, true) items ->
                release_raises lockfile = false) ->
            snd r = map fst (filter snd items))).
Proof.
  intros r. subst r. unfold stop_output. split; [|split].
  - destruct locked; reflexivity.
  - intros ->. reflexivity.
  - intros items ->. cbn [snd].
    destruct (release_locks_held release_raises items)
      as (rest & Heq & Hlast).
    split; [|split].
    + intros f Hf.
      assert (Hin : In f (map fst (filter snd items))).
      { rewrite Heq. apply in_or_app. now left. }
      apply in_map_iff in Hin. destruct Hin as ([f' st] & Hf' & Hin).
      apply filter_In in Hin. cbn in *. destruct Hin as [Hin Hst].
      subst. exact Hin.
    + exists rest. now split.
    + apply release_locks_all.
Qed.

(** ** [setup_logger] and the identifier prefix *)

Lemma split_dash_first_spec s :
  has_dash (split_dash_first s) = false
  /\ (s = split_dash_first s
      \/ exists rest,
           s = String.append (split_dash_first s) (String "-"%char rest)).
Proof.
  induction s as [|c s [IH1 IH2]]; cbn.
  - split; [reflexivity|now left].
  - destruct (Ascii.eqb_spec c "-"%char) as [-> | Hc].
    + split; [reflexivity|]. right. exists s. reflexivity.
    + cbn. split.
      * rewrite IH1. destruct (Ascii.eqb_spec c "-"%char); [contradiction|].
        reflexivity.
      * destruct IH2 as [IH2 | (rest & IH2)].
        -- left. now rewrite <- IH2.
        -- right. exists rest. now rewrite <- IH2.
Qed.

(** X30: outside testing and with an output row, [setup_logger] names the
    logger [name], an underscore and the identifier up to its first dash:
    that part holds no dash and the identifier is either that part alone
    or that part, a dash and a rest; an empty or missing [name] stands for
    the module's name; the level is DEBUG or INFO after the row's
    [log_level_debug].  In testing mode, or without a row, the logger is
    [name] itself and no level is set. *)
Theorem setup_logger_names_by_identifier_prefix testing name output_dev :
  let r := setup_logger testing name output_dev in
  let base :=
    match name with
    | Some n => if String.eqb n "" then module_name else n
    | None => module_name
    end in
  (testing = true \/ output_dev = None -> r = (base, None))
  /\ (forall dev_unique_id log_level_debug,
        testing = false ->
        output_dev = Some (dev_unique_id, log_level_debug) ->
        exists prefix,
          r = (String.append base (String.append "_" prefix),
               Some (if log_level_debug then DEBUG else INFO))
          /\ has_dash prefix = false
          /\ (dev_unique_id = prefix
              \/ exists rest,
                   dev_unique_id
                   = String.append prefix (String "-"%char rest))).
Proof.
  intros r base. subst r base. unfold setup_logger. split.
  - intros [-> | ->]; [|reflexivity].
    destruct output_dev as [[u l]|]; reflexivity.
  - intros u l -> ->. cbn [negb].
    exists (split_dash_first u). split; [reflexivity|].
    apply split_dash_first_spec.
Qed.

Lemma check_triggers_raises_iff_duty_cycle_unreadable_witness :
  let rule :=
    {| Trigger.unique_id := "d07c-rule"; Trigger.name := "Fan idle";
       Trigger.trigger_type := "trigger_output_pwm";
       Trigger.unique_id_1 := "0a1b2c3d-relay";
       Trigger.is_activated := true; Trigger.output_state := "below";
       Trigger.output_duration := 0; Trigger.output_duty_cycle := 40 |} in
  let e :=
    Scenario.env_at 0 false true false [Scenario.rule_gt_15; rule] in
  r_val (check_triggers e 20 Scenario.relay) = inl TypeError
  /\ dispatches_of "7e57ab1e-rule"
       (r_trace (check_triggers e 20 Scenario.relay)) = 1%nat.
Proof.
  intros rule e.
  destruct (@check_triggers_raises_iff_duty_cycle_unreadable e 20
              Scenario.relay) as (Hiff & Htrace & _).
  assert (Hv : r_val (check_triggers e 20 Scenario.relay) = inl TypeError).
  { apply Hiff. split; [discriminate|reflexivity]. }
  split; [exact Hv|]. rewrite (Htrace Hv). reflexivity.
Defined.

Lemma stop_output_releases_held_locks_witness :
  let raises := fun lockfile => String.eqb lockfile "/var/lock/b" in
  let items :=
    [("/var/lock/a", true); ("/var/lock/idle", false);
     ("/var/lock/b", true); ("/var/lock/c", true)] in
  fst (stop_output raises (Some items)) = false
  /\ exists rest,
       ["/var/lock/a"; "/var/lock/b"; "/var/lock/c"]
       = snd (stop_output raises (Some items)) ++ rest
       /\ (rest <> [] ->
           exists before lockfile,
             snd (stop_output raises (Some items)) = before ++ [lockfile]
             /\ raises lockfile = true).
Proof.
  intros raises items.
  destruct (@stop_output_releases_held_locks raises (Some items))
    as (Hrun & _ & Hitems).
  split; [exact Hrun|].
  exact (proj1 (proj2 (Hitems items eq_refl))).
Defined.

Lemma setup_logger_names_by_identifier_prefix_witness :
  exists prefix,
    setup_logger false (Some "mycodo.outputs.wired")
      (Some ("0a1b2c3d-relay", true))
    = (String.append "mycodo.outputs.wired" (String.append "_" prefix),
       Some DEBUG)
    /\ has_dash prefix = false
    /\ ("0a1b2c3d-relay" = prefix
        \/ exists rest,
             "0a1b2c3d-relay" = String.append prefix (String "-"%char rest)).
Proof.
  exact (proj2 (@setup_logger_names_by_identifier_prefix false
                  (Some "mycodo.outputs.wired")
                  (Some ("0a1b2c3d-relay", true)))
           "0a1b2c3d-relay" true eq_refl eq_refl).
Defined.

(** ** Requests within the range of [datetime] *)

Ltac range_to_lia :=
  unfold moderate_state, stamped_in_range, in_datetime_range,
    moderate_span, datetime_min, datetime_end in *;
  change (10 ^ 10) with 10000000000 in *;
  change (- (719162 * 86400)) with (-62135596800) in *;
  change (2932897 * 86400) with 253402300800 in *.

Lemma on_branch_moderate e otype amount min_off is_on now self :
  Z.abs now <= moderate_span ->
  Z.abs (env_utcnow e) <= moderate_span ->
  Z.abs amount <= moderate_span ->
  moderate_state self ->
  let r := on_branch e otype amount min_off is_on now self in
  moderate_state (r_self r) /\ stamped_in_range (r_trace r).
Proof.
  range_to_lia. intros Hn Hu Ha (Hs1 & Hs2 & Hs3).
  unfold_py. destruct self. cbn in Hs1, Hs2, Hs3. crunch.
  all: cbn; eqb_to_prop.
  all: try specialize (Hs1 eq_refl).
  all: split; [split; [|split]|].
  all: try (intros; discriminate).
  all: try exact Hs1.
  all: try (intros _; lia).
  all: try lia.
  all: try exact Hs3.
  all: try (intros ? Hts; inversion Hts; subst; lia).
  all: try (constructor; fail).
  all: try (constructor; [cbn; intros ? Hts; inversion Hts; subst; lia
                         |constructor]).
Qed.

Lemma off_branch_moderate e otype now self :
  Z.abs now <= moderate_span ->
  Z.abs (env_utcnow e) <= moderate_span ->
  moderate_state self ->
  let r := off_branch e otype now self in
  moderate_state (r_self r) /\ stamped_in_range (r_trace r).
Proof.
  intros Hn Hu Hst. cbn zeta.
  destruct (env_switch_raises e) eqn:Hr.
  - rewrite (off_branch_raises _ otype now self Hr).
    split; [exact Hst|constructor].
  - rewrite (off_branch_run _ otype now self Hr).
    range_to_lia. destruct Hst as (Hs1 & Hs2 & Hs3).
    unfold switched_off, indefinite_sample, duration_sample, elapsed,
      remaining. destruct self. cbn in *.
    destruct output_on_duration0, output_time_turned_on0 as [turned_on|];
      cbn.
    all: try specialize (Hs1 eq_refl).
    all: try specialize (Hs3 _ eq_refl).
    all: split; [split; [|split]|].
    all: try (intros; discriminate).
    all: try lia.
    all: try (constructor; fail).
    all: constructor; [|constructor].
    all: cbn; intros ? Hts; inversion Hts; subst.
    all: destruct (output_on_until0 >? now)%Z eqn:Hgt; eqb_to_prop; lia.
Qed.

(** One moderate request keeps the object's instants moderate and stamps
    what it records within the range of [datetime]. *)
Lemma call_moderate c self :
  moderate c ->
  moderate_state self ->
  moderate_state (r_self (call c self))
  /\ stamped_in_range (r_trace (call c self)).
Proof.
  intros (Hn & Hu & Ha & _) Hst. unfold call.
  destruct (output_on_off_cases (c_env c) (c_state c) (c_otype c)
              (c_amount c) (c_min_off c) (c_trigger_conditionals c) self)
    as [H | [H | [(_ & _ & H) | (_ & _ & H)]]]; rewrite H.
  - split; [exact Hst|constructor].
  - split; [exact Hst|constructor].
  - rewrite bind_finish_self. unfold stamped_in_range.
    rewrite (proj2 (bind_finish_effects _ _ _ _ _)).
    now apply on_branch_moderate.
  - rewrite bind_finish_self. unfold stamped_in_range.
    rewrite (proj2 (bind_finish_effects _ _ _ _ _)).
    now apply off_branch_moderate.
Qed.

(** From set-up on, moderate requests keep the object's instants
    moderate. *)
Lemma run_calls_moderate output types info t0 t1 cs :
  Forall moderate cs ->
  moderate_state (run_calls (fresh output types info t0 t1) cs).
Proof.
  assert (Hgen : forall self,
             Forall moderate cs -> moderate_state self ->
             moderate_state (run_calls self cs)).
  { induction cs as [|c cs IH]; intros self Hm Hst; [exact Hst|].
    inversion Hm; subst. cbn [run_calls].
    apply IH; [assumption|]. now apply call_moderate. }
  intros Hm. apply Hgen; [exact Hm|].
  range_to_lia. cbn. split; [discriminate|]. split; [lia|discriminate].
Qed.
